(** * A ReAct agent loop (agent_demo.py): shallow embedding and properties

    The development follows the layout of the program:
    - Python strings and the string primitives the loop uses
      ([in], [split(sep, 1)], [strip], f-string formatting of integers);
    - the values [json.loads] produces and the exceptions that can occur;
    - the regular expression that locates the action region;
    - [call_llm]: outbound message list, retry loop, response decoding;
    - [run_agent_loop]: the step loop, tool dispatch and its handler. *)

From Stdlib Require Import List ZArith NArith Lia Bool Ascii String DecimalString.
Import ListNotations.

Set Implicit Arguments.

(** ** Python strings *)

(** A Python [str] is a sequence of Unicode code points. *)
Definition pystr := list N.

(** An ASCII literal of the source, as a [pystr]. *)
Definition lit (s : string) : pystr := map N_of_ascii (list_ascii_of_string s).

(** The same, with every apostrophe standing for a double quote. *)
Definition litq (s : string) : pystr :=
  map (fun c => if (c =? 39)%N then 34%N else c) (lit s).

Definition pystr_eqb (a b : pystr) : bool :=
  if list_eq_dec N.eq_dec a b then true else false.

(** [str.isspace] on one code point; it is also the class [\s] of [re]
    for [str] patterns. *)
Definition isspace (c : N) : bool :=
  ((9 <=? c) && (c <=? 13) || (28 <=? c) && (c <=? 32)
   || (c =? 133) || (c =? 160) || (c =? 5760)
   || (8192 <=? c) && (c <=? 8202)
   || (c =? 8232) || (c =? 8233) || (c =? 8239) || (c =? 8287)
   || (c =? 12288))%N.

Fixpoint lstrip (s : pystr) : pystr :=
  match s with
  | c :: s' => if isspace c then lstrip s' else s
  | [] => []
  end.

Definition rstrip (s : pystr) : pystr := rev (lstrip (rev s)).

(** [s.strip()] *)
Definition py_strip (s : pystr) : pystr := rstrip (lstrip s).

(** Trimming as the specification words it: [t] is [s] without the
    white space at its two ends. *)
Definition spec_trimmed (s t : pystr) : Prop :=
  exists l r,
    s = l ++ t ++ r
    /\ forallb isspace l = true /\ forallb isspace r = true
    /\ match t with
       | c :: _ => isspace c = false
       | [] => True
       end
    /\ match rev t with
       | c :: _ => isspace c = false
       | [] => True
       end.

(** [s.startswith(p)], returning what follows the prefix. *)
Fixpoint strip_prefix (p s : pystr) : option pystr :=
  match p, s with
  | [], _ => Some s
  | a :: p', b :: s' => if N.eqb a b then strip_prefix p' s' else None
  | _ :: _, [] => None
  end.

(** [sub in s] *)
Fixpoint py_in (sub s : pystr) : bool :=
  match strip_prefix sub s with
  | Some _ => true
  | None => match s with
            | [] => false
            | _ :: s' => py_in sub s'
            end
  end.

(** The first occurrence of [sep] in [s]: what precedes it and what
    follows it. *)
Fixpoint partition (sep s : pystr) : option (pystr * pystr) :=
  match strip_prefix sep s with
  | Some rest => Some ([], rest)
  | None => match s with
            | [] => None
            | c :: s' =>
                match partition sep s' with
                | Some (a, b) => Some (c :: a, b)
                | None => None
                end
            end
  end.

(** [s.split(sep, 1)] for a non-empty separator. *)
Definition py_split1 (sep s : pystr) : list pystr :=
  match partition sep s with
  | Some (a, b) => [a; b]
  | None => [s]
  end.

(** The decimal text of an [int]: [str(n)], as an f-string field
    prints it when the [int] has at most [INT_MAX_STR_DIGITS] digits.
    The interpreter refuses a longer one; [format_field] has the test
    where a tool's result is printed, and the attempt numbers of
    [request_failed_msg] are taken to be within it. *)
Definition str_of_int (z : Z) : pystr := lit (NilZero.string_of_int (Z.to_int z)).

(** [range(n)] *)
Definition py_range (n : Z) : list Z := map Z.of_nat (seq 0 (Z.to_nat n)).

(** ** Messages and the outbound message list of [call_llm] *)

Record message := Msg { role : pystr; content : pystr }.

Definition r_system := lit "system".
Definition r_user := lit "user".
Definition r_assistant := lit "assistant".
Definition r_tool := lit "tool".

Definition has_role (r : pystr) (m : message) : bool := pystr_eqb (role m) r.

(** [history[1:]] *)
Definition py_tail {A} (l : list A) : list A := tl l.

(** The body of the [for msg in history[1:]] loop: the messages list
    after one more history entry has been looked at. *)
Definition add_history_msg (messages : list message) (msg : message) : list message :=
  if has_role r_user msg || has_role r_assistant msg || has_role r_system msg
  then messages ++ [Msg (role msg) (content msg)]
  else if has_role r_tool msg
       then messages ++ [Msg r_user (content msg)]
       else messages.

(** Lines 40-52 of [call_llm]. *)
Definition build_messages (history : list message) (system_prompt : pystr)
  : list message :=
  let messages := [] in
  let messages :=
    match system_prompt with
    | [] => messages
    | _ :: _ => messages ++ [Msg r_system system_prompt]
    end in
  fold_left add_history_msg (py_tail history) messages.

(** The translation as the specification words it: user and assistant
    messages pass unchanged, an observation becomes a user message. *)
Definition spec_conversational (m : message) : bool :=
  has_role r_user m || has_role r_assistant m || has_role r_tool m.

Definition spec_fold_observation (m : message) : message :=
  if has_role r_tool m then Msg r_user (content m) else m.

Definition spec_outbound (history : list message) (system_prompt : pystr) :=
  Msg r_system system_prompt
    :: map spec_fold_observation (filter spec_conversational (py_tail history)).

(** The history invariant of the data model: exactly one system
    message, and it is the first. *)
Definition history_invariant (history : list message) : Prop :=
  match history with
  | [] => False
  | m :: rest => role m = r_system /\ Forall (fun x => role x <> r_system) rest
  end.

(** What the loop over [history[1:]] contributes, on its own. *)
Definition translate_one (m : message) : list message :=
  add_history_msg [] m.

Definition translate (l : list message) : list message :=
  flat_map translate_one l.

(** ** Values and exceptions *)

(** The values [json.loads] produces.  A float is kept as the text of
    its literal: floating-point arithmetic is not modelled.  A [dict]
    is its items in insertion order, keys unique. *)
#[local] Set Warnings "-register-all".
Inductive pyval :=
| VNone
| VBool (b : bool)
| VInt (z : Z)
| VFloat (literal : pystr)
| VStr (s : pystr)
| VList (l : list pyval)
| VDict (d : list (pystr * pyval)).

(** The exception classes that occur, each with [str(e)], and any
    other class under its name.  The texts the interpreter gives to
    [TypeError] and [AttributeError] are those of CPython 3.11 for a
    script run as the main module; the program never formats them. *)
Inductive exn :=
| JSONDecodeError (msg : pystr)
| KeyError (msg : pystr)
| IndexError (msg : pystr)
| ValueError (msg : pystr)
| TypeError (msg : pystr)
| AttributeError (msg : pystr)
| OtherError (class_name msg : pystr).

Definition str_of_exn (e : exn) : pystr :=
  match e with
  | JSONDecodeError m | KeyError m | IndexError m
  | ValueError m | TypeError m | AttributeError m | OtherError _ m => m
  end.

Inductive result (A : Type) :=
| Ok (a : A)
| Raise (e : exn).
Arguments Ok {A} a.
Arguments Raise {A} e.

(** [repr] of a string key made of plain letters: [str(KeyError(k))]. *)
Definition repr_key (k : pystr) : pystr := lit "'" ++ k ++ lit "'".

Fixpoint dict_get (d : list (pystr * pyval)) (k : pystr) : option pyval :=
  match d with
  | [] => None
  | (k', v) :: d' => if pystr_eqb k' k then Some v else dict_get d' k
  end.

(** [d[k] = v]: an existing key keeps its place. *)
Fixpoint dict_set (d : list (pystr * pyval)) (k : pystr) (v : pyval) :=
  match d with
  | [] => [(k, v)]
  | (k', v') :: d' =>
      if pystr_eqb k' k then (k', v) :: d' else (k', v') :: dict_set d' k v
  end.

Definition type_name (v : pyval) : pystr :=
  match v with
  | VNone => lit "NoneType"
  | VBool _ => lit "bool"
  | VInt _ => lit "int"
  | VFloat _ => lit "float"
  | VStr _ => lit "str"
  | VList _ => lit "list"
  | VDict _ => lit "dict"
  end.

Definition not_subscriptable (v : pyval) : exn :=
  TypeError (lit "'" ++ type_name v ++ lit "' object is not subscriptable").

(** [v[k]] for a string key [k]. *)
Definition getitem_key (v : pyval) (k : pystr) : result pyval :=
  match v with
  | VDict d =>
      match dict_get d k with
      | Some x => Ok x
      | None => Raise (KeyError (repr_key k))
      end
  | VList _ => Raise (TypeError (lit "list indices must be integers or slices, not str"))
  | VStr _ => Raise (TypeError (lit "string indices must be integers, not 'str'"))
  | _ => Raise (not_subscriptable v)
  end.

(** [v[0]].  The keys of a decoded object are strings, so [0] is never
    one of them. *)
Definition getitem_0 (v : pyval) : result pyval :=
  match v with
  | VList (x :: _) => Ok x
  | VList [] => Raise (IndexError (lit "list index out of range"))
  | VStr (c :: _) => Ok (VStr [c])
  | VStr [] => Raise (IndexError (lit "string index out of range"))
  | VDict _ => Raise (KeyError (lit "0"))
  | _ => Raise (not_subscriptable v)
  end.

(** [v.strip()] *)
Definition method_strip (v : pyval) : result pystr :=
  match v with
  | VStr s => Ok (py_strip s)
  | _ => Raise (AttributeError
                  (lit "'" ++ type_name v ++ lit "' object has no attribute 'strip'"))
  end.

(** ** json.loads

    The grammar of the decoder in two passes over the text: a lexer,
    one code point at a time, and a stack machine over the tokens.
    [None] stands for the decoder's [ValueError]: a [JSONDecodeError],
    or the plain [ValueError] of an integer literal that is longer than
    the interpreter converts.  The interpreter's other limit, the depth
    of nesting, is [json_too_deep] below. *)

(** The most digits the interpreter takes or gives when it converts
    between [int] and decimal text (its default setting); beyond it
    the conversion raises [ValueError]. *)
Definition INT_MAX_STR_DIGITS : nat := 4300.

Inductive token :=
| TLBrace | TRBrace | TLBracket | TRBracket | TComma | TColon
| TStr (s : pystr)
| TAtom (v : pyval).

Definition is_json_ws (c : N) : bool :=
  ((c =? 32) || (c =? 9) || (c =? 10) || (c =? 13))%N.

Definition is_digit (c : N) : bool := ((48 <=? c) && (c <=? 57))%N.

(** The code points of numbers and of the bare words [null], [true],
    [false], [NaN], [Infinity], [-Infinity]. *)
Definition is_run_char (c : N) : bool :=
  (is_digit c || (65 <=? c) && (c <=? 90) || (97 <=? c) && (c <=? 122)
   || (c =? 43) || (c =? 45) || (c =? 46))%N.

Fixpoint span_digits (s : pystr) : pystr * pystr :=
  match s with
  | c :: s' =>
      if is_digit c
      then let (ds, rest) := span_digits s' in (c :: ds, rest)
      else ([], s)
  | [] => ([], [])
  end.

Definition digits_value (ds : pystr) : Z :=
  fold_left (fun acc d => 10 * acc + (Z.of_N d - 48))%Z ds 0%Z.

(** The number grammar of the decoder, on a whole run: an optional
    minus sign; a zero or a digit string with no leading zero; an
    optional fraction (a dot and digits); an optional exponent (e or E,
    an optional sign, digits).  With a fraction or an exponent the
    number is a float, otherwise an int, which [int] refuses beyond
    [INT_MAX_STR_DIGITS] digits. *)
Definition scan_number (s : pystr) : option pyval :=
  let (neg, s1) :=
    match s with
    | 45%N :: t => (true, t)
    | _ => (false, s)
    end in
  let (ip, s2) := span_digits s1 in
  match ip with
  | [] => None
  | d :: ds =>
      if (d =? 48)%N && negb (match ds with [] => true | _ => false end)
      then None
      else
        let frac :=
          match s2 with
          | 46%N :: t =>
              match span_digits t with
              | ([], _) => None
              | (_, t') => Some (true, t')
              end
          | _ => Some (false, s2)
          end in
        match frac with
        | None => None
        | Some (has_frac, s3) =>
            let exp :=
              match s3 with
              | c :: t =>
                  if ((c =? 101) || (c =? 69))%N
                  then
                    let t1 :=
                      match t with
                      | sg :: u => if ((sg =? 43) || (sg =? 45))%N then u else t
                      | [] => t
                      end in
                    match span_digits t1 with
                    | ([], _) => None
                    | (_, t') => Some (true, t')
                    end
                  else Some (false, s3)
              | [] => Some (false, s3)
              end in
            match exp with
            | Some (has_exp, []) =>
                if has_frac || has_exp then Some (VFloat s)
                else if (INT_MAX_STR_DIGITS <? List.length ip)%nat then None
                else Some (VInt (if neg then - digits_value ip else digits_value ip))
            | _ => None
            end
        end
  end.

(** A run of [is_run_char] code points as a scalar. *)
Definition scan_atom (s : pystr) : option pyval :=
  if pystr_eqb s (lit "null") then Some VNone
  else if pystr_eqb s (lit "true") then Some (VBool true)
  else if pystr_eqb s (lit "false") then Some (VBool false)
  else if pystr_eqb s (lit "NaN") || pystr_eqb s (lit "Infinity")
          || pystr_eqb s (lit "-Infinity") then Some (VFloat s)
  else scan_number s.

Definition hex_value (c : N) : option N :=
  (if is_digit c then Some (c - 48)
   else if (97 <=? c) && (c <=? 102) then Some (c - 87)
   else if (65 <=? c) && (c <=? 70) then Some (c - 55)
   else None)%N.

(** The one-letter escapes of a JSON string. *)
Definition unescape (c : N) : option N :=
  (if c =? 34 then Some 34 else if c =? 92 then Some 92
   else if c =? 47 then Some 47 else if c =? 98 then Some 8
   else if c =? 102 then Some 12 else if c =? 110 then Some 10
   else if c =? 114 then Some 13 else if c =? 116 then Some 9
   else None)%N.

Definition is_high_surrogate (c : N) : bool := ((55296 <=? c) && (c <=? 56319))%N.
Definition is_low_surrogate (c : N) : bool := ((56320 <=? c) && (c <=? 57343))%N.

(** Lexer states.  Accumulators are reversed; [hi] records that the
    last code point of a string is a high surrogate written as an
    escape, which a following escaped low surrogate completes. *)
Inductive lexst :=
| LIdle
| LStr (acc : pystr) (hi : bool)
| LEsc (acc : pystr) (hi : bool)
| LUni (acc : pystr) (hi : bool) (digits : list N)
| LRun (acc : pystr).

Definition idle_step (toks : list token) (c : N) : option (lexst * list token) :=
  (if is_json_ws c then Some (LIdle, toks)
   else if c =? 123 then Some (LIdle, TLBrace :: toks)
   else if c =? 125 then Some (LIdle, TRBrace :: toks)
   else if c =? 91 then Some (LIdle, TLBracket :: toks)
   else if c =? 93 then Some (LIdle, TRBracket :: toks)
   else if c =? 44 then Some (LIdle, TComma :: toks)
   else if c =? 58 then Some (LIdle, TColon :: toks)
   else if c =? 34 then Some (LStr [] false, toks)
   else if is_run_char c then Some (LRun [c], toks)
   else None)%N.

Definition end_unicode_escape (acc : pystr) (hi : bool) (u : N) : option lexst :=
  if hi && is_low_surrogate u
  then match acc with
       | h :: acc' =>
           Some (LStr ((65536 + (h - 55296) * 1024 + (u - 56320))%N :: acc') false)
       | [] => None
       end
  else Some (LStr (u :: acc) (is_high_surrogate u)).

Definition lex_step (st : lexst * list token) (c : N) : option (lexst * list token) :=
  let (l, toks) := st in
  match l with
  | LIdle => idle_step toks c
  | LRun acc =>
      if is_run_char c then Some (LRun (c :: acc), toks)
      else match scan_atom (rev acc) with
           | Some v => idle_step (TAtom v :: toks) c
           | None => None
           end
  | LStr acc hi =>
      (if c =? 34 then Some (LIdle, TStr (rev acc) :: toks)
       else if c =? 92 then Some (LEsc acc hi, toks)
       else if c <? 32 then None
       else Some (LStr (c :: acc) false, toks))%N
  | LEsc acc hi =>
      if (c =? 117)%N then Some (LUni acc hi [], toks)
      else match unescape c with
           | Some x => Some (LStr (x :: acc) false, toks)
           | None => None
           end
  | LUni acc hi ds =>
      match hex_value c with
      | None => None
      | Some d =>
          match ds with
          | [d1; d2; d3] =>
              match end_unicode_escape acc hi (((d1 * 16 + d2) * 16 + d3) * 16 + d)%N with
              | Some l' => Some (l', toks)
              | None => None
              end
          | _ => Some (LUni acc hi (ds ++ [d]), toks)
          end
      end
  end.

Fixpoint lex_from (st : lexst * list token) (s : pystr) : option (list token) :=
  match s with
  | c :: s' =>
      match lex_step st c with
      | Some st' => lex_from st' s'
      | None => None
      end
  | [] =>
      match st with
      | (LIdle, toks) => Some (rev toks)
      | (LRun acc, toks) =>
          match scan_atom (rev acc) with
          | Some v => Some (rev (TAtom v :: toks))
          | None => None
          end
      | _ => None
      end
  end.

Definition lex (s : pystr) : option (list token) := lex_from (LIdle, []) s.

(** The stack machine: open containers, innermost first. *)
Inductive frame :=
| FArr (items : list pyval)
| FObj (d : list (pystr * pyval)) (key : option pystr).

Inductive pstate :=
| PValue | PValueOrClose | PKeyOrClose | PKey | PColon | PCommaOrClose
| PDone (v : pyval).

(** A value is complete: it goes into the innermost open container. *)
Definition reduce (stack : list frame) (v : pyval) : option (list frame * pstate) :=
  match stack with
  | [] => Some ([], PDone v)
  | FArr items :: st => Some (FArr (v :: items) :: st, PCommaOrClose)
  | FObj d (Some k) :: st => Some (FObj (dict_set d k v) None :: st, PCommaOrClose)
  | FObj _ None :: _ => None
  end.

Definition close_array (stack : list frame) :=
  match stack with
  | FArr items :: st => reduce st (VList (rev items))
  | _ => None
  end.

Definition close_object (stack : list frame) :=
  match stack with
  | FObj d None :: st => reduce st (VDict d)
  | _ => None
  end.

Definition open_value (stack : list frame) (t : token) :=
  match t with
  | TStr s => reduce stack (VStr s)
  | TAtom v => reduce stack v
  | TLBrace => Some (FObj [] None :: stack, PKeyOrClose)
  | TLBracket => Some (FArr [] :: stack, PValueOrClose)
  | _ => None
  end.

Definition take_key (stack : list frame) (t : token) :=
  match t, stack with
  | TStr k, FObj d None :: st => Some (FObj d (Some k) :: st, PColon)
  | _, _ => None
  end.

Definition parse_step (st : list frame * pstate) (t : token)
  : option (list frame * pstate) :=
  let (stack, ps) := st in
  match ps with
  | PValue => open_value stack t
  | PValueOrClose =>
      match t with
      | TRBracket => close_array stack
      | _ => open_value stack t
      end
  | PKeyOrClose =>
      match t with
      | TRBrace => close_object stack
      | _ => take_key stack t
      end
  | PKey => take_key stack t
  | PColon =>
      match t with
      | TColon => Some (stack, PValue)
      | _ => None
      end
  | PCommaOrClose =>
      match t, stack with
      | TComma, FArr _ :: _ => Some (stack, PValue)
      | TComma, FObj _ _ :: _ => Some (stack, PKey)
      | TRBracket, _ => close_array stack
      | TRBrace, _ => close_object stack
      | _, _ => None
      end
  | PDone _ => None
  end.

Fixpoint parse_from (st : list frame * pstate) (ts : list token) : option pyval :=
  match ts with
  | t :: ts' =>
      match parse_step st t with
      | Some st' => parse_from st' ts'
      | None => None
      end
  | [] =>
      match st with
      | ([], PDone v) => Some v
      | _ => None
      end
  end.

(** The document as the grammar reads it. *)
Definition json_parse (s : pystr) : option pyval :=
  match lex s with
  | Some ts => parse_from ([], PValue) ts
  | None => None
  end.

(** The decoder reads the text once, left to right, and enters each
    container by a recursive call; the interpreter raises
    [RecursionError] at the container that opens deeper than it allows,
    unless the text before it is already in error.  So the tokens go
    to the stack machine as the lexer gives them, and the depth is
    looked at after each; [TooDeep] has the token that opens the
    container that is one too many. *)
Inductive fed :=
| Fed (st : list frame * pstate)
| Rejected
| TooDeep (t : token).

Fixpoint feed (limit : nat) (st : list frame * pstate) (ts : list token) : fed :=
  match ts with
  | [] => Fed st
  | t :: ts' =>
      match parse_step st t with
      | None => Rejected
      | Some st' =>
          if (limit <? List.length (fst st'))%nat then TooDeep t
          else feed limit st' ts'
      end
  end.

Fixpoint too_deep_from (limit : nat) (l : lexst) (st : list frame * pstate)
  (s : pystr) : option token :=
  match s with
  | [] => None
  | c :: s' =>
      match lex_step (l, []) c with
      | None => None
      | Some (l', emitted) =>
          match feed limit st (rev emitted) with
          | Fed st' => too_deep_from limit l' st' s'
          | Rejected => None
          | TooDeep t => Some t
          end
      end
  end.

(** Where the decoder runs out of recursion on [s] when it may nest
    [limit] containers, if it does. *)
Definition json_overflow (limit : nat) (s : pystr) : option token :=
  too_deep_from limit LIdle ([], PValue) s.

Definition json_too_deep (limit : nat) (s : pystr) : bool :=
  match json_overflow limit s with
  | Some _ => true
  | None => false
  end.


(** ** The action pattern

    [re.search] with the pattern of line 132 under [re.DOTALL]: the
    literal [[ACTION_START]], white space, a group that opens with a
    brace, takes as few code points as it can and closes with a brace,
    white space, the literal [[ACTION_END]].  The matcher backtracks
    as [re] does; each piece takes the rest of the pattern as its
    continuation. *)

Definition ACTION_START := lit "[ACTION_START]".
Definition ACTION_END := lit "[ACTION_END]".
Definition LBRACE : N := 123.
Definition RBRACE : N := 125.

(** A literal. *)
Definition re_literal {A} (p : pystr) (k : pystr -> option A) (s : pystr) : option A :=
  match strip_prefix p s with
  | Some rest => k rest
  | None => None
  end.

(** One given code point. *)
Definition re_char {A} (c : N) (k : pystr -> option A) (s : pystr) : option A :=
  match s with
  | x :: s' => if N.eqb x c then k s' else None
  | [] => None
  end.

(** Greedy white space: one more code point first, and only when the
    rest of the pattern fails after it, none. *)
Fixpoint re_spaces {A} (k : pystr -> option A) (s : pystr) : option A :=
  match s with
  | c :: s' =>
      if isspace c
      then match re_spaces k s' with
           | Some r => Some r
           | None => k s
           end
      else k s
  | [] => k []
  end.

(** Lazy "any code points": the rest of the pattern first, and only
    when it fails, one more code point.  [taken] is what the group has
    consumed so far. *)
Fixpoint re_lazy_any {A} (k : pystr -> pystr -> option A) (taken s : pystr) : option A :=
  match k taken s with
  | Some r => Some r
  | None =>
      match s with
      | c :: s' => re_lazy_any k (taken ++ [c]) s'
      | [] => None
      end
  end.

(** The end of the pattern, after the group has taken [LBRACE :: taken]. *)
Definition action_re_close (taken : pystr) : pystr -> option pystr :=
  re_char RBRACE
    (re_spaces
       (re_literal ACTION_END
          (fun _ => Some (LBRACE :: taken ++ [RBRACE])))).

(** A match that starts at the head of [s]: its group 1. *)
Definition action_re_at (s : pystr) : option pystr :=
  re_literal ACTION_START
    (re_spaces (re_char LBRACE (re_lazy_any action_re_close []))) s.

(** [re.search(...)], then [.group(1)]: the leftmost match. *)
Fixpoint action_match (s : pystr) : option pystr :=
  match action_re_at s with
  | Some g => Some g
  | None =>
      match s with
      | _ :: s' => action_match s'
      | [] => None
      end
  end.

(** The region the pattern of line 132 describes, said without the
    matcher: the two markers around a payload, white space allowed on
    both sides of the payload.  The braces that open and close the
    payload are the pattern's: two markers around a text that is not in
    braces are no region. *)
Definition action_region (text payload : pystr) : Prop :=
  exists pre ws1 body ws2 post,
    text = pre ++ ACTION_START ++ ws1 ++ payload ++ ws2 ++ ACTION_END ++ post
    /\ payload = LBRACE :: body ++ [RBRACE]
    /\ forallb isspace ws1 = true /\ forallb isspace ws2 = true.

(** ** Tools and their registry *)

(** What the interpreter does outside the fragment modelled here. *)
Class Runtime := {
  (** [a + b] when [a] and [b] are not both [int] or [bool] *)
  py_add_ext : pyval -> pyval -> result pyval;
  (** [str(v)] for a float, a list or a dict *)
  py_str_ext : pyval -> pystr;
  (** [str(e)] of the [ValueError] of the decoder for a document *)
  json_error_msg : pystr -> pystr;
  (** the containers the decoder may nest, beyond 64: what the
      recursion limit leaves above the frames in use (about a thousand
      under the default settings) *)
  json_depth_headroom : nat
}.

Definition bind_result {A B} (r : result A) (f : A -> result B) : result B :=
  match r with
  | Ok a => f a
  | Raise e => Raise e
  end.

Notation "x <~ r ; k" := (bind_result r (fun x => k))
  (at level 61, r at next level, right associativity).

Section Tools.
Context {RT : Runtime}.

Definition json_depth_limit : nat := 64 + json_depth_headroom.

(** The [RecursionError] of the decoder at a container that is one too
    many; the program never prints it. *)
Definition recursion_error (t : token) : exn :=
  OtherError (lit "RecursionError")
    (lit "maximum recursion depth exceeded while decoding a JSON "
       ++ match t with
          | TLBrace => lit "object"
          | _ => lit "array"
          end
       ++ lit " from a unicode string").

(** [json.loads(s)]: the value, or [None] for an exception, which is
    the [RecursionError] when [json_too_deep] says so and the decoder's
    [ValueError] otherwise. *)
Definition json_loads (s : pystr) : option pyval :=
  if json_too_deep json_depth_limit s then None else json_parse s.

(** [str(v)], as an f-string field prints it; for an [int] within
    [INT_MAX_STR_DIGITS] digits, see [format_field]. *)
Definition py_str (v : pyval) : pystr :=
  match v with
  | VNone => lit "None"
  | VBool true => lit "True"
  | VBool false => lit "False"
  | VInt z => str_of_int z
  | VStr s => s
  | _ => py_str_ext v
  end.

(** [str(e)] of the [ValueError] for an [int] that has too many digits
    to print, as CPython 3.11 words it. *)
Definition INT_LIMIT_MESSAGE : pystr :=
  lit "Exceeds the limit (4300 digits) for integer string conversion; "
    ++ lit "use sys.set_int_max_str_digits() to increase the limit".

(** The decimal digits of an [int]. *)
Definition int_digits (z : Z) : nat := List.length (str_of_int (Z.abs z)).

(** An f-string field for a value that a tool has computed: an [int]
    of more than [INT_MAX_STR_DIGITS] digits cannot be printed. *)
Definition format_field (v : pyval) : result pystr :=
  match v with
  | VInt z =>
      if (INT_MAX_STR_DIGITS <? int_digits z)%nat
      then Raise (ValueError INT_LIMIT_MESSAGE)
      else Ok (py_str v)
  | _ => Ok (py_str v)
  end.

Definition int_value (v : pyval) : option Z :=
  match v with
  | VInt z => Some z
  | VBool b => Some (if b then 1 else 0)%Z
  | _ => None
  end.

(** [add_numbers], lines 13-15: [return a + b]. *)
Definition add_numbers (a b : pyval) : result pyval :=
  match int_value a, int_value b with
  | Some x, Some y => Ok (VInt (x + y))
  | _, _ => py_add_ext a b
  end.

(** A function: its name, its parameters, and its body on the values
    bound to them, in order. *)
Record tool := {
  tool_name : pystr;
  params : list pystr;
  body : list pyval -> result pyval
}.

(** [add_numbers] as a function of two parameters; a call binds both
    before the body runs, so the last branch is never taken. *)
Definition add_numbers_tool : tool :=
  {| tool_name := lit "add_numbers";
     params := [lit "a"; lit "b"];
     body := fun vs =>
               match vs with
               | [a; b] => add_numbers a b
               | _ => Raise (TypeError (lit "add_numbers() takes 2 positional arguments"))
               end |}.

(** [AVAILABLE_TOOLS], lines 18-20. *)
Definition AVAILABLE_TOOLS : list (pystr * tool) :=
  [(lit "add_numbers", add_numbers_tool)].

Fixpoint registry_get (reg : list (pystr * tool)) (k : pystr) : option tool :=
  match reg with
  | [] => None
  | (k', t) :: reg' => if pystr_eqb k' k then Some t else registry_get reg' k
  end.

(** [name in AVAILABLE_TOOLS], then [AVAILABLE_TOOLS[name]]: a list
    or a dict cannot be hashed; no other value than a string equals
    a key. *)
Definition lookup_tool (name : pyval) : result (option tool) :=
  match name with
  | VList _ | VDict _ =>
      Raise (TypeError (lit "unhashable type: '" ++ type_name name ++ lit "'"))
  | VStr s => Ok (registry_get AVAILABLE_TOOLS s)
  | _ => Ok None
  end.

Fixpoint bind_params (ps : list pystr) (d : list (pystr * pyval)) : option (list pyval) :=
  match ps with
  | [] => Some []
  | p :: ps' =>
      match dict_get d p, bind_params ps' d with
      | Some v, Some vs => Some (v :: vs)
      | _, _ => None
      end
  end.

(** The names in the text of a missing-argument error. *)
Fixpoint join_names (names : list pystr) : pystr :=
  match names with
  | [] => []
  | [x] => repr_key x
  | [x; y] => repr_key x ++ lit " and " ++ repr_key y
  | x :: ((_ :: _ :: _) as rest) =>
      repr_key x ++ lit ", "
        ++ match rest with
           | [y; z] => repr_key y ++ lit ", and " ++ repr_key z
           | _ => join_names rest
           end
  end.

Definition missing_arguments_msg (f : tool) (d : list (pystr * pyval)) : pystr :=
  let missing :=
    filter (fun p => match dict_get d p with None => true | Some _ => false end)
      (params f) in
  tool_name f ++ lit "() missing " ++ str_of_int (Z.of_nat (List.length missing))
    ++ lit " required positional argument"
    ++ (if (List.length missing =? 1)%nat then [] else lit "s")
    ++ lit ": " ++ join_names missing.

(** A call of [f] with the mapping [args] unpacked into keyword
    arguments: [args] must be a mapping, each of its keys a parameter
    of [f], and each parameter bound. *)
Definition call_kwargs (f : tool) (args : pyval) : result pyval :=
  match args with
  | VDict d =>
      match find (fun kv => negb (existsb (pystr_eqb (fst kv)) (params f))) d with
      | Some (k, _) =>
          Raise (TypeError (tool_name f ++ lit "() got an unexpected keyword argument "
                              ++ repr_key k))
      | None =>
          match bind_params (params f) d with
          | Some vs => body f vs
          | None => Raise (TypeError (missing_arguments_msg f d))
          end
      end
  | _ =>
      Raise (TypeError (lit "__main__." ++ tool_name f
                          ++ lit "() argument after ** must be a mapping, not "
                          ++ type_name args))
  end.

(** The [try] block of lines 141-162: the observation message, or
    the exception raised on the way.  The decoder's [ValueError] is
    written [JSONDecodeError] also when it is the plain one of an
    integer literal beyond [INT_MAX_STR_DIGITS]: line 164 takes both,
    and the text is the runtime's. *)
Definition execute_action (action_json_str : pystr) : result pystr :=
  match json_loads action_json_str with
  | None =>
      Raise (match json_overflow json_depth_limit action_json_str with
             | Some t => recursion_error t
             | None => JSONDecodeError (json_error_msg action_json_str)
             end)
  | Some action_dict =>
      name <~ getitem_key action_dict (lit "tool");
      tool_args <~ getitem_key action_dict (lit "args");
      found <~ lookup_tool name;
      match found with
      | None => Raise (ValueError (lit "Tool " ++ py_str name ++ lit " not registered."))
      | Some tool_function =>
          observation_result <~ call_kwargs tool_function tool_args;
          printed <~ format_field observation_result;
          Ok (lit "Observation: " ++ printed)
      end
  end.

(** [except (json.JSONDecodeError, KeyError, ValueError)], line 164. *)
Definition handled (e : exn) : bool :=
  match e with
  | JSONDecodeError _ | KeyError _ | ValueError _ => true
  | _ => false
  end.

(** ** One pass of the loop body, after the model has answered *)

Definition FINAL_MARKER := lit "Final Answer:".
Definition DONE_PREFIX : pystr := [10; 9989]%N ++ lit " Agent Finished! Final Answer: ".
Definition FAILED_MESSAGE : pystr :=
  [10060%N] ++ lit " Agent failed to produce a valid action or final answer.".
Definition BUDGET_MESSAGE : pystr :=
  [10060%N] ++ lit " Max steps reached without a final answer.".
Definition ERROR_PREFIX := lit "Observation: Tool Execution Error: ".

Inductive control :=
| Return (value : pystr)
| Continue (history : list message)
| Throw (history : list message) (e : exn).

(** Lines 125-173. *)
Definition step_body (history : list message) (llm_response : pystr) : control :=
  if py_in FINAL_MARKER llm_response
  then
    let final_answer := py_strip (nth 1 (py_split1 FINAL_MARKER llm_response) []) in
    Return (DONE_PREFIX ++ final_answer)
  else
    match action_match llm_response with
    | Some action_json_str =>
        let history := history ++ [Msg r_assistant llm_response] in
        match execute_action action_json_str with
        | Ok observation_message =>
            Continue (history ++ [Msg r_tool observation_message])
        | Raise e =>
            if handled e
            then
              let error_message := lit "Tool Execution Error: " ++ str_of_exn e in
              Continue (history ++ [Msg r_tool (lit "Observation: " ++ error_message)])
            else Throw history e
        end
    | None => Return FAILED_MESSAGE
    end.
End Tools.

(** ** The remote endpoint and the run state *)

(** What one [requests.post] attempt comes to: an exception of the
    [requests.exceptions.RequestException] family (connection error,
    timeout, the [HTTPError] of [raise_for_status], a body that is not
    JSON), the decoded body of a 2xx response, or an exception of
    another class raised on the way (the plain [ValueError] or the
    [RecursionError] that [response.json()] lets through for a body
    beyond the interpreter's limits). *)
Inductive attempt :=
| RequestException (msg : pystr)
| Response (body : pyval)
| Raised (e : exn).

(** What a run does to the outside, in order: the banner that opens a
    step, a request with its messages (the other fields of the payload
    are constants of the configuration), a [time.sleep]. *)
Inductive event :=
| EStep (number : Z)
| EPost (messages : list message)
| ESleep (seconds : Z).

(** The configuration and the endpoint.  The endpoint answers a request
    knowing all that has happened so far. *)
Class Deployment := {
  api_key : option pystr;
  endpoint : list event -> list message -> attempt
}.

Record run_state := { hist : list message; events : list event }.

(** Computations of the loop: they read and write the run state and
    end with a value or with an exception. *)
Definition M (A : Type) := run_state -> result A * run_state.

Definition ret {A} (a : A) : M A := fun st => (Ok a, st).
Definition raise {A} (e : exn) : M A := fun st => (Raise e, st).
Definition bind {A B} (m : M A) (f : A -> M B) : M B :=
  fun st =>
    match m st with
    | (Ok a, st') => f a st'
    | (Raise e, st') => (Raise e, st')
    end.

Notation "x <- m ;; k" := (bind m (fun x => k))
  (at level 62, m at next level, right associativity).
Notation "m ;; k" := (bind m (fun _ => k))
  (at level 62, right associativity).

Definition emit (e : event) : M unit :=
  fun st => (Ok tt, {| hist := hist st; events := events st ++ [e] |}).
Definition get_history : M (list message) := fun st => (Ok (hist st), st).
Definition set_history (h : list message) : M unit :=
  fun st => (Ok tt, {| hist := h; events := events st |}).

Definition DEFAULT_MAX_RETRIES : Z := 3.
Definition DEFAULT_MAX_STEPS : Z := 5.

Section Agent.
Context {RT : Runtime} {DP : Deployment}.

(** [requests.post(...)], [raise_for_status()] and [response.json()]
    of one attempt. *)
Definition post (messages : list message) : M attempt :=
  fun st =>
    (Ok (endpoint (events st) messages),
     {| hist := hist st; events := events st ++ [EPost messages] |}).

(** [result["choices"][0]["message"]["content"].strip()], lines 85-87. *)
Definition response_content (body : pyval) : result pystr :=
  choices <~ getitem_key body (lit "choices");
  first <~ getitem_0 choices;
  msg <~ getitem_key first (lit "message");
  llm_response <~ getitem_key msg (lit "content");
  method_strip llm_response.

Definition request_failed_msg (attempt max_retries : Z) (e : pystr) : pystr :=
  lit "API request failed (attempt " ++ str_of_int (attempt + 1) ++ lit "/"
    ++ str_of_int max_retries ++ lit "): " ++ e.

(** The retry loop of lines 70-106, over the attempts still to come:
    the first [except] takes a [RequestException], the second a
    [KeyError] or an [IndexError], and any other exception leaves the
    function. *)
Fixpoint retry_loop (messages : list message) (max_retries : Z)
  (attempts : list Z) : M pystr :=
  match attempts with
  | [] => ret (lit "Error: Maximum retry attempts exceeded.")
  | attempt :: rest =>
      r <- post messages ;;
      match r with
      | RequestException e =>
          let error_msg := request_failed_msg attempt max_retries e in
          if (attempt =? max_retries - 1)%Z
          then ret (lit "Error: " ++ error_msg)
          else
            let wait_time := (2 ^ attempt)%Z in
            emit (ESleep wait_time) ;;
            retry_loop messages max_retries rest
      | Response body =>
          match response_content body with
          | Ok llm_response => ret llm_response
          | Raise (KeyError m) | Raise (IndexError m) =>
              let error_msg := lit "Failed to parse API response: " ++ m in
              ret (lit "Error: " ++ error_msg)
          | Raise e => raise e
          end
      | Raised (KeyError m) | Raised (IndexError m) =>
          let error_msg := lit "Failed to parse API response: " ++ m in
          ret (lit "Error: " ++ error_msg)
      | Raised e => raise e
      end
  end.

Definition key_configured : bool :=
  match api_key with
  | None | Some [] => false
  | Some (_ :: _) => true
  end.

(** [call_llm], lines 32-106. *)
Definition call_llm (history : list message) (system_prompt : pystr)
  (max_retries : Z) : M pystr :=
  if negb key_configured
  then raise (ValueError
                (lit "DeepSeek API key not found. Please set DEEPSEEK_API_KEY environment variable."))
  else
    let messages := build_messages history system_prompt in
    retry_loop messages max_retries (py_range max_retries).

(** The [for step in range(max_steps)] loop of lines 118-175, over
    the steps still to come. *)
Fixpoint agent_steps (system_prompt : pystr) (steps : list Z) : M pystr :=
  match steps with
  | [] => ret BUDGET_MESSAGE
  | step :: rest =>
      emit (EStep (step + 1)) ;;
      history <- get_history ;;
      llm_response <- call_llm history system_prompt DEFAULT_MAX_RETRIES ;;
      match step_body history llm_response with
      | Return value => ret value
      | Continue history' => set_history history' ;; agent_steps system_prompt rest
      | Throw history' e => set_history history' ;; raise e
      end
  end.

(** THINKING: the banner of a step and the model call. *)
Definition think (system_prompt : pystr) (step : Z) : M pystr :=
  emit (EStep (step + 1)) ;;
  history <- get_history ;;
  call_llm history system_prompt DEFAULT_MAX_RETRIES.

Definition initial_state (initial_user_prompt system_prompt : pystr) : run_state :=
  {| hist := [Msg r_system system_prompt; Msg r_user initial_user_prompt];
     events := [] |}.

(** [run_agent_loop], lines 109-175. *)
Definition run_agent_loop (initial_user_prompt system_prompt : pystr)
  (max_steps : Z) : result pystr * run_state :=
  agent_steps system_prompt (py_range max_steps)
    (initial_state initial_user_prompt system_prompt).
End Agent.

(** How a run looks from outside. *)
Definition count_posts (tr : list event) : nat :=
  List.length (filter (fun e => match e with EPost _ => true | _ => false end) tr).
Definition count_steps (tr : list event) : nat :=
  List.length (filter (fun e => match e with EStep _ => true | _ => false end) tr).
Definition sleeps (tr : list event) : list Z :=
  flat_map (fun e => match e with ESleep n => [n] | _ => [] end) tr.

(** The retry schedule as the specification words it: [n] attempts, a
    delay of [2 ^ i] between attempt [i] and the next, none after the
    last. *)
Fixpoint spec_retry_events (messages : list message) (n : nat) (i : Z) : list event :=
  match n with
  | O => []
  | S O => [EPost messages]
  | S n' => EPost messages :: ESleep (2 ^ i) :: spec_retry_events messages n' (i + 1)
  end.

(** A response body in which the path of line 85 ends at an object
    without the key or at an empty list: an object without [choices],
    an empty list of choices, a first choice that is an object without
    [message], a message that is an object without [content].  These
    are the bodies on which the path raises [KeyError] or [IndexError];
    where the field is absent because the value around it is no object
    or list (as in [NULL_CHOICES_BODY]) the path raises [TypeError]. *)
Definition key_or_index_missing (body : pyval) : bool :=
  match body with
  | VDict d =>
      match dict_get d (lit "choices") with
      | None => true
      | Some (VList []) => true
      | Some (VList (VDict c :: _)) =>
          match dict_get c (lit "message") with
          | None => true
          | Some (VDict m) =>
              match dict_get m (lit "content") with
              | None => true
              | Some _ => false
              end
          | Some _ => false
          end
      | Some _ => false
      end
  | _ => false
  end.

(** ** Concrete runtimes and deployments for the examples *)

(** A runtime for the examples: outside the modelled fragment an
    addition fails, and the texts are placeholders. *)
Definition plain_runtime : Runtime :=
  {| py_add_ext := fun _ _ => Raise (TypeError (lit "unsupported operand type(s) for +"));
     py_str_ext := fun _ => lit "<value>";
     json_error_msg := fun _ => lit "<invalid JSON>";
     json_depth_headroom := 0 |}.

(** The completion body the endpoint returns for a reply [text]. *)
Definition completion (text : pystr) : pyval :=
  VDict [(lit "choices",
          VList [VDict [(lit "message",
                         VDict [(lit "role", VStr r_assistant);
                                (lit "content", VStr text)])]])].

(** A model that gives the same reply to every request. *)
Definition constant_model (text : pystr) : Deployment :=
  {| api_key := Some (lit "sk-test");
     endpoint := fun _ _ => Response (completion text) |}.

(** An endpoint that times out at every attempt. *)
Definition dead_endpoint : Deployment :=
  {| api_key := Some (lit "sk-test");
     endpoint := fun _ _ => RequestException (lit "timed out") |}.

(** A model that replies from a script, one reply per request, and
    repeats the last one when the script is over. *)
Definition scripted_model (first : pystr) (others : list pystr) : Deployment :=
  {| api_key := Some (lit "sk-test");
     endpoint := fun tr _ =>
                   Response (completion (nth (count_posts tr) (first :: others)
                                            (last others first))) |}.

Definition EXAMPLE_ACTION : pystr :=
  litq "{'tool': 'add_numbers', 'args': {'a': 123, 'b': 456}}".

(** A reply with the example action between the markers, on lines of
    its own, after a thought. *)
Definition EXAMPLE_REPLY : pystr :=
  lit "Thought: I will use add_numbers." ++ [10%N] ++ ACTION_START ++ [10%N]
    ++ EXAMPLE_ACTION ++ [10%N] ++ ACTION_END.

(** A request for [add_numbers] that leaves out the argument [b]. *)
Definition MISSING_ARG_ACTION : pystr :=
  litq "{'tool': 'add_numbers', 'args': {'a': 1}}".

Definition MISSING_ARG_REPLY : pystr :=
  ACTION_START ++ MISSING_ARG_ACTION ++ ACTION_END.

Definition MISSING_ARG_ERROR : exn :=
  TypeError (lit "add_numbers() missing 1 required positional argument: 'b'").

(** ** Further notions for the properties of the whole run *)

(** The text of the [ValueError] of line 37. *)
Definition KEY_MISSING_MESSAGE : pystr :=
  lit "DeepSeek API key not found. Please set DEEPSEEK_API_KEY environment variable.".

(** [except (KeyError, IndexError)], line 100. *)
Definition parse_failure (e : exn) : bool :=
  match e with
  | KeyError _ | IndexError _ => true
  | _ => false
  end.

(** The roles the endpoint is sent. *)
Definition outbound_role (m : message) : bool :=
  has_role r_system m || has_role r_user m || has_role r_assistant m.

(** The roles [call_llm] looks at; a message of another role is passed
    over by both branches of lines 48-52. *)
Definition known_role (m : message) : bool :=
  has_role r_user m || has_role r_assistant m || has_role r_system m
  || has_role r_tool m.

(** The histories the loop builds: the two seed messages of lines
    112-115, then one assistant message and one tool message per step
    that went through dispatch, the tool message opening with
    [Observation: ]. *)
Inductive conversation (system_prompt initial_user_prompt : pystr)
  : list message -> Prop :=
| conversation_seed :
    conversation system_prompt initial_user_prompt
      [Msg r_system system_prompt; Msg r_user initial_user_prompt]
| conversation_step history reply observation :
    conversation system_prompt initial_user_prompt history ->
    conversation system_prompt initial_user_prompt
      (history ++ [Msg r_assistant reply;
                   Msg r_tool (lit "Observation: " ++ observation)]).

(** A message list made by [call_llm] from a history the loop builds. *)
Definition from_conversation (system_prompt initial_user_prompt : pystr)
  (messages : list message) : Prop :=
  exists history,
    conversation system_prompt initial_user_prompt history
    /\ messages = build_messages history system_prompt.

(** The requests of a trace. *)
Definition posts (tr : list event) : list (list message) :=
  flat_map (fun e => match e with EPost m => [m] | _ => [] end) tr.

(** The time a trace spends asleep. *)
Definition total_sleep (tr : list event) : Z := fold_right Z.add 0%Z (sleeps tr).

(** The trace of a call whose first [k] attempts fail and whose next
    attempt is answered: [k] requests, each followed by its delay, and
    one more request. *)
Fixpoint spec_retry_then_answer (messages : list message) (k : nat) (i : Z)
  : list event :=
  match k with
  | O => [EPost messages]
  | S k' => EPost messages :: ESleep (2 ^ i)
              :: spec_retry_then_answer messages k' (i + 1)
  end.

(** A deployment without an API key, and one whose key is the empty
    string. *)
Definition keyless (answer : attempt) : Deployment :=
  {| api_key := None; endpoint := fun _ _ => answer |}.

Definition empty_key (answer : attempt) : Deployment :=
  {| api_key := Some []; endpoint := fun _ _ => answer |}.

(** An endpoint that fails until it has seen [k] requests, and then
    answers with the body [body]. *)
Definition flaky_endpoint (k : nat) (body : pyval) : Deployment :=
  {| api_key := Some (lit "sk-test");
     endpoint := fun tr _ =>
                   if (count_posts tr <? k)%nat
                   then RequestException (lit "timed out")
                   else Response body |}.

(** A completion whose message has a [null] content. *)
Definition NULL_CONTENT_BODY : pyval :=
  VDict [(lit "choices",
          VList [VDict [(lit "message",
                         VDict [(lit "role", VStr r_assistant);
                                (lit "content", VNone)])]])].

Definition null_content_model : Deployment :=
  {| api_key := Some (lit "sk-test");
     endpoint := fun _ _ => Response NULL_CONTENT_BODY |}.

(** A 2xx response whose body has [null] for its choices. *)
Definition NULL_CHOICES_BODY : pyval := VDict [(lit "choices", VNone)].

Definition null_choices_model : Deployment :=
  {| api_key := Some (lit "sk-test");
     endpoint := fun _ _ => Response NULL_CHOICES_BODY |}.

(** A 2xx response whose body is an empty object. *)
Definition no_choices_model : Deployment :=
  {| api_key := Some (lit "sk-test");
     endpoint := fun _ _ => Response (VDict []) |}.

(** The text of a failed request, as line 90 and line 93 word it. *)
Definition request_error_text (attempt max_retries : Z) (e : pystr) : pystr :=
  lit "Error: API request failed (attempt " ++ str_of_int attempt ++ lit "/"
    ++ str_of_int max_retries ++ lit "): " ++ e.

(** The text for a response without an expected field, as lines 101
    and 103 word it: the missing key in quotes, or the text of the
    [IndexError] of an empty list. *)
Definition parse_error_text (body : pyval) : pystr :=
  lit "Error: Failed to parse API response: "
    ++ match body with
       | VDict d =>
           match dict_get d (lit "choices") with
           | None => lit "'choices'"
           | Some (VList (VDict c :: _)) =>
               match dict_get c (lit "message") with
               | None => lit "'message'"
               | Some _ => lit "'content'"
               end
           | Some _ => lit "list index out of range"
           end
       | _ => []
       end.

(** A reply that names a tool the registry does not have. *)
Definition UNKNOWN_TOOL_REPLY : pystr :=
  ACTION_START ++ litq "{'tool': 'multiply', 'args': {}}" ++ ACTION_END.



(** An object that holds [n] arrays, one inside the other. *)
Definition nested_arrays (n : nat) : pystr :=
  litq "{'a': " ++ repeat 91%N n ++ repeat 93%N n ++ lit "}".

(** A request for the sum of 1 and the largest number of
    [INT_MAX_STR_DIGITS] digits. *)
Definition LONG_SUM_ACTION : pystr :=
  litq "{'tool': 'add_numbers', 'args': {'a': " ++ repeat 57%N INT_MAX_STR_DIGITS
    ++ litq ", 'b': 1}}".

(** The [ValueError] of [int] for a literal of 4301 digits, as CPython
    3.11 words it. *)
Definition LITERAL_TOO_LONG : exn :=
  ValueError
    (lit "Exceeds the limit (4300 digits) for integer string conversion: "
       ++ lit "value has 4301 digits; use sys.set_int_max_str_digits() to increase the limit").

(** An endpoint whose answer [response.json()] cannot decode within
    the interpreter's limits: the attempt raises a plain [ValueError]. *)
Definition undecodable_body_model : Deployment :=
  {| api_key := Some (lit "sk-test"); endpoint := fun _ _ => Raised LITERAL_TOO_LONG |}.

(** * Properties *)

(** ** Strings *)

Lemma pystr_eqb_eq a b : pystr_eqb a b = true <-> a = b.
Proof. unfold pystr_eqb. destruct (list_eq_dec N.eq_dec a b); split; congruence. Qed.

Lemma pystr_eqb_refl a : pystr_eqb a a = true.
Proof. now apply pystr_eqb_eq. Qed.

Lemma pystr_eqb_neq a b : pystr_eqb a b = false <-> a <> b.
Proof. unfold pystr_eqb. destruct (list_eq_dec N.eq_dec a b); split; congruence. Qed.

Lemma strip_prefix_app p s rest :
  strip_prefix p s = Some rest <-> s = p ++ rest.
Proof.
  revert s. induction p as [|a p IH]; intros s; simpl.
  - split; congruence.
  - destruct s as [|b s]; [split; discriminate|].
    destruct (N.eqb_spec a b) as [->|Hne].
    + rewrite IH. split; congruence.
    + split; [discriminate | intros [= ? _]; congruence].
Qed.

Lemma strip_prefix_self p rest : strip_prefix p (p ++ rest) = Some rest.
Proof. now apply strip_prefix_app. Qed.

(** [sub in s] holds exactly when [s] has [sub] somewhere inside. *)
Lemma py_in_spec sub s :
  py_in sub s = true <-> exists pre post, s = pre ++ sub ++ post.
Proof.
  induction s as [|c s IH]; simpl.
  - destruct (strip_prefix sub []) as [r|] eqn:E.
    + apply strip_prefix_app in E. split; [|reflexivity].
      intros _. now exists [], r.
    + split; [discriminate|]. intros (pre & post & H).
      destruct pre; [|discriminate]. simpl in H.
      apply strip_prefix_app in H. congruence.
  - destruct (strip_prefix sub (c :: s)) as [r|] eqn:E.
    + apply strip_prefix_app in E. split; [|reflexivity].
      intros _. now exists [], r.
    + rewrite IH. split.
      * intros (pre & post & ->). now exists (c :: pre), post.
      * intros (pre & post & H). destruct pre as [|x pre]; simpl in H.
        -- apply strip_prefix_app in H. congruence.
        -- injection H as _ ->. now exists pre, post.
Qed.

(** [partition] finds the first occurrence. *)
Lemma partition_spec sep s a b :
  partition sep s = Some (a, b) ->
  s = a ++ sep ++ b
  /\ forall a' b', s = a' ++ sep ++ b' -> (List.length a <= List.length a')%nat.
Proof.
  revert a b. induction s as [|c s IH]; intros a b; simpl.
  - destruct (strip_prefix sep []) as [r|] eqn:E; [|discriminate].
    intros [= <- <-]. apply strip_prefix_app in E. split; [exact E|].
    intros; simpl; lia.
  - destruct (strip_prefix sep (c :: s)) as [r|] eqn:E.
    + intros [= <- <-]. apply strip_prefix_app in E. split; [exact E|].
      intros; simpl; lia.
    + destruct (partition sep s) as [[a0 b0]|] eqn:P; [|discriminate].
      intros [= <- <-]. destruct (IH _ _ eq_refl) as [-> Hmin].
      split; [reflexivity|].
      intros a' b' H. destruct a' as [|x a']; simpl in H.
      * apply strip_prefix_app in H. congruence.
      * injection H as _ H. apply Hmin in H. simpl. lia.
Qed.

Lemma partition_in sep s :
  py_in sep s = true -> exists a b, partition sep s = Some (a, b).
Proof.
  induction s as [|c s IH]; simpl.
  - destruct (strip_prefix sep []); [eauto | discriminate].
  - destruct (strip_prefix sep (c :: s)); [eauto|].
    intros H. destruct (IH H) as (a & b & ->). eauto.
Qed.

(** [lstrip] removes a run of white space and stops at the first code
    point that is not white space. *)
Lemma lstrip_spec s :
  exists ws, s = ws ++ lstrip s /\ forallb isspace ws = true
             /\ match lstrip s with
                | c :: _ => isspace c = false
                | [] => True
                end.
Proof.
  induction s as [|c s (ws & E & Hws & Hhd)]; simpl.
  - now exists [].
  - destruct (isspace c) eqn:Hc.
    + exists (c :: ws). simpl. rewrite Hc, Hws. repeat split; [congruence | exact Hhd].
    + exists []. simpl. now repeat split.
Qed.

Lemma forallb_rev {A} (f : A -> bool) l : forallb f (rev l) = forallb f l.
Proof.
  induction l as [|x l IH]; simpl; [reflexivity|].
  rewrite forallb_app, IH. simpl. rewrite andb_true_r. apply andb_comm.
Qed.

(** [strip] removes white space on both sides, and nothing else. *)
Lemma py_strip_spec s : spec_trimmed s (py_strip s).
Proof.
  unfold spec_trimmed, py_strip, rstrip.
  destruct (lstrip_spec s) as (l & El & Hl & Hhd).
  destruct (lstrip_spec (rev (lstrip s))) as (r & Er & Hr & Hlast).
  exists l, (rev r). rewrite rev_involutive.
  assert (Emid : lstrip s = rev (lstrip (rev (lstrip s))) ++ rev r).
  { rewrite <- rev_app_distr, <- Er. now rewrite rev_involutive. }
  repeat split.
  - rewrite <- Emid. exact El.
  - exact Hl.
  - now rewrite forallb_rev.
  - destruct (rev (lstrip (rev (lstrip s)))) as [|c t] eqn:E; [exact I|].
    rewrite Emid in Hhd. exact Hhd.
  - exact Hlast.
Qed.

(** ** The outbound message list *)

Lemma has_role_true r m : has_role r m = true <-> role m = r.
Proof. apply pystr_eqb_eq. Qed.

Lemma has_role_false r m : has_role r m = false <-> role m <> r.
Proof. apply pystr_eqb_neq. Qed.

Lemma add_history_msg_app acc m : add_history_msg acc m = acc ++ translate_one m.
Proof.
  unfold translate_one, add_history_msg.
  destruct (has_role r_user m || has_role r_assistant m || has_role r_system m);
    [reflexivity|].
  destruct (has_role r_tool m); [reflexivity | now rewrite app_nil_r].
Qed.

Lemma fold_add_history_msg l acc :
  fold_left add_history_msg l acc = acc ++ translate l.
Proof.
  revert acc. induction l as [|m l IH]; intros acc; simpl.
  - now rewrite app_nil_r.
  - rewrite IH, add_history_msg_app, <- app_assoc. reflexivity.
Qed.

(** The message list is the system prompt, when there is one, and then
    the translation of the history without its first entry. *)
Lemma build_messages_eq history system_prompt :
  build_messages history system_prompt =
  match system_prompt with
  | [] => []
  | _ :: _ => [Msg r_system system_prompt]
  end ++ translate (py_tail history).
Proof.
  unfold build_messages. rewrite fold_add_history_msg.
  now destruct system_prompt.
Qed.

Lemma message_eta m : Msg (role m) (content m) = m.
Proof. now destruct m. Qed.

Lemma translate_one_cases m :
  translate_one m =
  if has_role r_user m || has_role r_assistant m || has_role r_system m then [m]
  else if has_role r_tool m then [Msg r_user (content m)] else [].
Proof.
  unfold translate_one, add_history_msg. simpl. now rewrite message_eta.
Qed.

(** Without system messages in it, a history is translated as the
    specification says. *)
Lemma translate_no_system l :
  Forall (fun x => role x <> r_system) l ->
  translate l = map spec_fold_observation (filter spec_conversational l).
Proof.
  induction 1 as [|m l Hm _ IH]; [reflexivity|].
  unfold translate in *. simpl. rewrite IH, translate_one_cases.
  unfold spec_conversational, spec_fold_observation.
  apply has_role_false in Hm. rewrite Hm, orb_false_r.
  destruct (has_role r_user m) eqn:Hu; simpl.
  - assert (has_role r_tool m = false) as ->; [|reflexivity].
    apply has_role_true in Hu. apply has_role_false. rewrite Hu. discriminate.
  - destruct (has_role r_assistant m) eqn:Ha; simpl.
    + assert (has_role r_tool m = false) as ->; [|reflexivity].
      apply has_role_true in Ha. apply has_role_false. rewrite Ha. discriminate.
    + destruct (has_role r_tool m) eqn:Ht; simpl; rewrite ?Ht; reflexivity.
Qed.

Lemma spec_fold_observation_role m :
  spec_conversational m = true ->
  role (spec_fold_observation m) = r_user \/ role (spec_fold_observation m) = r_assistant.
Proof.
  unfold spec_conversational, spec_fold_observation.
  destruct (has_role r_tool m) eqn:Ht; [now left|].
  rewrite orb_false_r. intros H. apply orb_true_iff in H.
  destruct H as [H|H]; apply has_role_true in H; auto.
Qed.

(** C1: under the history invariant and with a non-empty system
    prompt, the outbound list is the system prompt followed by the
    history after its first entry, in order, where user and assistant
    messages are unchanged and every tool-role (observation) message
    has become a user message of the same content; the list has one
    system message, its head, and no tool-role message. *)
Theorem C1_outbound_messages history system_prompt :
  history_invariant history ->
  system_prompt <> [] ->
  build_messages history system_prompt = spec_outbound history system_prompt
  /\ hd_error (build_messages history system_prompt) = Some (Msg r_system system_prompt)
  /\ filter (has_role r_system) (build_messages history system_prompt)
     = [Msg r_system system_prompt]
  /\ filter (has_role r_tool) (build_messages history system_prompt) = []
  /\ filter (fun m => has_role r_user m || has_role r_assistant m)
       (py_tail (build_messages history system_prompt))
     = map spec_fold_observation
         (filter (fun m => has_role r_user m || has_role r_assistant m || has_role r_tool m)
            history).
Proof.
  intros Hinv Hp.
  destruct history as [|m0 rest]; [contradiction|]. destruct Hinv as [H0 Hrest].
  assert (E : build_messages (m0 :: rest) system_prompt
              = spec_outbound (m0 :: rest) system_prompt).
  { rewrite build_messages_eq. destruct system_prompt; [contradiction|].
    unfold spec_outbound. simpl. now rewrite translate_no_system. }
  split; [exact E|]. rewrite E. unfold spec_outbound. simpl py_tail.
  assert (Hroles : forall l, Forall (fun m => has_role r_system m = false
                                              /\ has_role r_tool m = false
                                              /\ (has_role r_user m || has_role r_assistant m) = true)
                               (map spec_fold_observation (filter spec_conversational l))).
  { intros l. apply Forall_forall. intros x Hx. apply in_map_iff in Hx.
    destruct Hx as (m & <- & Hm). apply filter_In in Hm. destruct Hm as [_ Hm].
    destruct (spec_fold_observation_role m Hm) as [R|R].
    - repeat split; [apply has_role_false | apply has_role_false
                     | apply orb_true_iff; left; now apply has_role_true];
        rewrite R; discriminate.
    - repeat split; [apply has_role_false | apply has_role_false
                     | apply orb_true_iff; right; now apply has_role_true];
        rewrite R; discriminate. }
  assert (Hnone : forall (f : message -> bool) l,
             Forall (fun m => f m = false) l -> filter f l = []).
  { intros f l. induction 1 as [|x l Hx _ IH]; simpl; [reflexivity|]. now rewrite Hx. }
  assert (Hall : forall (f : message -> bool) l,
             Forall (fun m => f m = true) l -> filter f l = l).
  { intros f l. induction 1 as [|x l Hx _ IH]; simpl; [reflexivity|].
    now rewrite Hx, IH. }
  assert (Hs : has_role r_system (Msg r_system system_prompt) = true)
    by apply pystr_eqb_refl.
  assert (Ht : has_role r_tool (Msg r_system system_prompt) = false)
    by reflexivity.
  repeat split.
  - cbn [filter]. rewrite Hs. f_equal.
    apply Hnone. eapply Forall_impl; [|apply Hroles]. now intros ? (? & _).
  - cbn [filter]. rewrite Ht.
    apply Hnone. eapply Forall_impl; [|apply Hroles]. now intros ? (_ & ? & _).
  - cbn [py_tail tl].
    rewrite Hall by (eapply Forall_impl; [|apply Hroles]; now intros ? (_ & _ & ?)).
    f_equal. cbn [filter].
    replace (has_role r_user m0 || has_role r_assistant m0 || has_role r_tool m0) with false.
    + reflexivity.
    + symmetry. repeat (apply orb_false_iff; split);
        apply has_role_false; rewrite H0; discriminate.
Qed.

Lemma C1_outbound_messages_witness :
  build_messages [Msg r_system (lit "s"); Msg r_user (lit "u"); Msg r_assistant (lit "a");
                  Msg r_tool (lit "Observation: 3")] (lit "p")
  = [Msg r_system (lit "p"); Msg r_user (lit "u"); Msg r_assistant (lit "a");
     Msg r_user (lit "Observation: 3")].
Proof.
  refine (proj1 (@C1_outbound_messages
                   [Msg r_system (lit "s"); Msg r_user (lit "u"); Msg r_assistant (lit "a");
                    Msg r_tool (lit "Observation: 3")] (lit "p") _ _)).
  - split; [reflexivity|]. repeat constructor; discriminate.
  - discriminate.
Defined.

Lemma filter_system_translate l :
  filter (has_role r_system) (translate l) = filter (has_role r_system) l.
Proof.
  induction l as [|m l IH]; [reflexivity|].
  unfold translate in *. cbn [flat_map]. rewrite filter_app, IH, translate_one_cases.
  cbn [filter].
  destruct (has_role r_system m) eqn:Hs.
  - rewrite orb_true_r. cbn [filter app]. now rewrite Hs.
  - rewrite orb_false_r.
    destruct (has_role r_user m || has_role r_assistant m).
    + cbn [filter app]. now rewrite Hs.
    + destruct (has_role r_tool m); reflexivity.
Qed.

(** C10 as stated does not hold: with an empty system prompt and a
    history that stores a system message after its first entry, the
    outbound list has a system-role entry. *)
Lemma C10_counterexample :
  build_messages
    [Msg r_user (lit "hello"); Msg r_system (lit "be brief"); Msg r_user (lit "2+2?")] []
  = [Msg r_system (lit "be brief"); Msg r_user (lit "2+2?")]
  /\ existsb (has_role r_system)
       (build_messages
          [Msg r_user (lit "hello"); Msg r_system (lit "be brief"); Msg r_user (lit "2+2?")] [])
     = true.
Proof. split; reflexivity. Qed.

(** C10, amended: the first stored entry is skipped whatever its role
    and content, and does not influence the request; a system-role
    message carrying the prompt is put first exactly when the prompt is
    not empty; with an empty prompt the list is the translation of the
    history after its first entry, so that it begins with what the
    second stored message translates to (the message itself when its
    role is user, assistant or system) and its system-role entries are
    exactly the system messages stored after the first position. *)
Theorem C10_first_entry_skipped :
  (forall m m' rest system_prompt,
      build_messages (m :: rest) system_prompt = build_messages (m' :: rest) system_prompt)
  /\ (forall history system_prompt,
         build_messages history system_prompt
         = (if pystr_eqb system_prompt [] then [] else [Msg r_system system_prompt])
             ++ build_messages history [])
  /\ (forall m0 m1 rest,
         build_messages (m0 :: m1 :: rest) []
         = (if has_role r_user m1 || has_role r_assistant m1 || has_role r_system m1
            then [m1]
            else if has_role r_tool m1 then [Msg r_user (content m1)] else [])
             ++ build_messages (m1 :: rest) [])
  /\ (forall history,
         filter (has_role r_system) (build_messages history [])
         = filter (has_role r_system) (py_tail history)).
Proof.
  split; [|split; [|split]].
  - intros. now rewrite !build_messages_eq.
  - intros. rewrite !build_messages_eq. now destruct system_prompt.
  - intros. rewrite !build_messages_eq. cbn [app py_tail tl].
    unfold translate. cbn [flat_map]. now rewrite translate_one_cases.
  - intros. rewrite build_messages_eq. cbn [app]. apply filter_system_translate.
Qed.

(** ** The action pattern *)

Section Matcher.
Variable A : Type.

Lemma re_spaces_sound (k : pystr -> option A) s r :
  re_spaces k s = Some r ->
  exists ws rest, s = ws ++ rest /\ forallb isspace ws = true /\ k rest = Some r.
Proof.
  induction s as [|c s IH]; simpl.
  - intros H. now exists [], [].
  - destruct (isspace c) eqn:Hc.
    + destruct (re_spaces k s) as [r'|] eqn:E.
      * intros [= ->]. destruct (IH eq_refl) as (ws & rest & -> & Hws & Hk).
        exists (c :: ws), rest. simpl. now rewrite Hc.
      * intros H. now exists [], (c :: s).
    + intros H. now exists [], (c :: s).
Qed.

Lemma re_spaces_complete (k : pystr -> option A) ws rest :
  forallb isspace ws = true -> k rest <> None -> re_spaces k (ws ++ rest) <> None.
Proof.
  induction ws as [|w ws IH]; simpl.
  - intros _ Hk. destruct rest as [|c s]; simpl; [exact Hk|].
    destruct (isspace c); [|exact Hk].
    destruct (re_spaces k s); [discriminate | exact Hk].
  - intros H Hk. apply andb_true_iff in H. destruct H as [Hw Hws]. rewrite Hw.
    specialize (IH Hws Hk). destruct (re_spaces k (ws ++ rest)); [discriminate | contradiction].
Qed.

(** Greedy: when the rest of the pattern accepts what follows the
    whole run of white space, that is the match. *)
Lemma re_spaces_all (k : pystr -> option A) ws rest r :
  forallb isspace ws = true ->
  match rest with c :: _ => isspace c = false | [] => True end ->
  k rest = Some r ->
  re_spaces k (ws ++ rest) = Some r.
Proof.
  intros Hws Hhd Hk. induction ws as [|w ws IH]; simpl.
  - destruct rest as [|c s]; simpl; [exact Hk|]. now rewrite Hhd.
  - simpl in Hws. apply andb_true_iff in Hws. destruct Hws as [Hw Hws].
    now rewrite Hw, IH.
Qed.

Lemma re_lazy_any_sound (k : pystr -> pystr -> option A) s : forall taken r,
  re_lazy_any k taken s = Some r ->
  exists mid rest, s = mid ++ rest /\ k (taken ++ mid) rest = Some r.
Proof.
  induction s as [|c s IH]; intros taken r; simpl.
  - destruct (k taken []) eqn:E; [|discriminate].
    intros [= ->]. exists [], []. split; [reflexivity | now rewrite app_nil_r].
  - destruct (k taken (c :: s)) eqn:E.
    + intros [= ->]. exists [], (c :: s). split; [reflexivity | now rewrite app_nil_r].
    + intros H. destruct (IH _ _ H) as (mid & rest & -> & Hk).
      exists (c :: mid), rest. split; [reflexivity|].
      now rewrite <- app_assoc in Hk.
Qed.

Lemma re_lazy_any_complete (k : pystr -> pystr -> option A) mid rest : forall taken,
  k (taken ++ mid) rest <> None -> re_lazy_any k taken (mid ++ rest) <> None.
Proof.
  induction mid as [|c mid IH]; intros taken Hk.
  - rewrite app_nil_r in Hk. simpl.
    destruct rest; simpl; destruct (k taken _); congruence.
  - simpl. destruct (k taken (c :: mid ++ rest)); [discriminate|].
    apply IH. now rewrite <- app_assoc.
Qed.
End Matcher.

Lemma action_re_at_sound s g :
  action_re_at s = Some g ->
  exists ws1 body ws2 post,
    s = ACTION_START ++ ws1 ++ g ++ ws2 ++ ACTION_END ++ post
    /\ g = LBRACE :: body ++ [RBRACE]
    /\ forallb isspace ws1 = true /\ forallb isspace ws2 = true.
Proof.
  unfold action_re_at, re_literal.
  destruct (strip_prefix ACTION_START s) as [r0|] eqn:E0; [|discriminate].
  apply strip_prefix_app in E0. subst s. intros H.
  apply re_spaces_sound in H. destruct H as (ws1 & r1 & -> & Hws1 & H).
  unfold re_char in H. destruct r1 as [|x r2]; [discriminate|].
  destruct (N.eqb_spec x LBRACE) as [->|]; [|discriminate].
  apply re_lazy_any_sound in H. destruct H as (body & r3 & -> & H).
  unfold action_re_close, re_char in H. destruct r3 as [|y r4]; [discriminate|].
  destruct (N.eqb_spec y RBRACE) as [->|]; [|discriminate].
  apply re_spaces_sound in H. destruct H as (ws2 & r5 & -> & Hws2 & H).
  unfold re_literal in H.
  destruct (strip_prefix ACTION_END r5) as [post|] eqn:E5; [|discriminate].
  apply strip_prefix_app in E5. subst r5. injection H as <-.
  exists ws1, body, ws2, post. split; [|now repeat split].
  cbn [app]. now rewrite <- app_assoc.
Qed.

Lemma action_re_at_complete ws1 body ws2 post :
  forallb isspace ws1 = true -> forallb isspace ws2 = true ->
  action_re_at (ACTION_START ++ ws1 ++ (LBRACE :: body ++ [RBRACE])
                  ++ ws2 ++ ACTION_END ++ post) <> None.
Proof.
  intros H1 H2. unfold action_re_at, re_literal. rewrite strip_prefix_self.
  apply re_spaces_complete; [exact H1|].
  cbn [app re_char]. rewrite N.eqb_refl. rewrite <- app_assoc.
  apply re_lazy_any_complete. cbn [app]. unfold action_re_close.
  cbn [app re_char]. rewrite N.eqb_refl.
  apply re_spaces_complete; [exact H2|].
  unfold re_literal. rewrite strip_prefix_self. discriminate.
Qed.

(** What [action_match] returns is the payload of a region of the text. *)
Lemma action_match_sound s g : action_match s = Some g -> action_region s g.
Proof.
  induction s as [|c s IH]; cbn [action_match].
  - destruct (action_re_at []) eqn:E; [|discriminate]. intros [= ->].
    apply action_re_at_sound in E. destruct E as (ws1 & body & ws2 & post & E & Hg & H1 & H2).
    now exists [], ws1, body, ws2, post.
  - destruct (action_re_at (c :: s)) eqn:E.
    + intros [= ->].
      apply action_re_at_sound in E. destruct E as (ws1 & body & ws2 & post & E & Hg & H1 & H2).
      now exists [], ws1, body, ws2, post.
    + intros H. destruct (IH H) as (pre & ws1 & body & ws2 & post & -> & Hg & H1 & H2).
      now exists (c :: pre), ws1, body, ws2, post.
Qed.

Lemma action_match_here s : action_re_at s <> None -> action_match s <> None.
Proof.
  intros H. destruct s; cbn [action_match]; destruct (action_re_at _); congruence.
Qed.

(** A text with a region in it is matched. *)
Lemma action_match_complete s g : action_region s g -> action_match s <> None.
Proof.
  intros (pre & ws1 & body & ws2 & post & -> & -> & H1 & H2).
  induction pre as [|c pre IH].
  - apply action_match_here. now apply action_re_at_complete.
  - cbn [app action_match]. destruct (action_re_at _); [discriminate | exact IH].
Qed.

Lemma action_match_none s :
  action_match s = None <-> forall payload, ~ action_region s payload.
Proof.
  split.
  - intros H payload R. now apply action_match_complete in R.
  - intros H. destruct (action_match s) as [g|] eqn:E; [|reflexivity].
    apply action_match_sound in E. now apply H in E.
Qed.

(** The match starts at the first [[ACTION_START]] when the pattern
    matches there. *)
Lemma action_match_first text pre rest g :
  partition ACTION_START text = Some (pre, rest) ->
  action_re_at (ACTION_START ++ rest) = Some g ->
  action_match text = Some g.
Proof.
  revert pre. induction text as [|c text IH]; intros pre; cbn [partition action_match].
  - destruct (strip_prefix ACTION_START []) eqn:E; discriminate.
  - destruct (strip_prefix ACTION_START (c :: text)) as [r|] eqn:E.
    + intros [= <- <-] Hg. apply strip_prefix_app in E. rewrite E. now rewrite Hg.
    + destruct (partition ACTION_START text) as [[a b]|] eqn:P; [|discriminate].
      intros [= <- <-] Hg.
      assert (Hnone : action_re_at (c :: text) = None).
      { unfold action_re_at, re_literal. now rewrite E. }
      rewrite Hnone. now apply (IH a).
Qed.

(** ** The decoder on a document that opens with a brace *)










(** ** The loop *)

Section Loop.
Context {RT : Runtime} {DP : Deployment}.

Lemma count_posts_app a b : count_posts (a ++ b) = (count_posts a + count_posts b)%nat.
Proof. unfold count_posts. now rewrite filter_app, length_app. Qed.

Lemma count_steps_app a b : count_steps (a ++ b) = (count_steps a + count_steps b)%nat.
Proof. unfold count_steps. now rewrite filter_app, length_app. Qed.

(** The retry loop leaves the history alone, adds events at the end
    of the trace, opens no step, and sends at most one request per
    attempt. *)
Lemma retry_loop_frame messages n attempts : forall st,
  exists new,
    snd (retry_loop messages n attempts st)
    = {| hist := hist st; events := events st ++ new |}
    /\ (count_posts new <= List.length attempts)%nat
    /\ count_steps new = 0%nat.
Proof.
  induction attempts as [|a attempts IH]; intros st.
  - exists []. cbn. rewrite app_nil_r. now destruct st.
  - cbn [retry_loop]. unfold bind at 1, post at 1.
    destruct (endpoint (events st) messages) as [e|body|x];
      [| | exists [EPost messages]; destruct x; cbn; repeat split; lia].
    + destruct (a =? n - 1)%Z.
      * exists [EPost messages]. cbn. repeat split. lia.
      * unfold bind, emit. cbn [hist events].
        destruct (IH {| hist := hist st;
                        events := (events st ++ [EPost messages]) ++ [ESleep (2 ^ a)] |})
          as (new & E & Hp & Hs).
        exists (EPost messages :: ESleep (2 ^ a) :: new).
        rewrite E. cbn [hist events]. repeat split.
        -- now rewrite <- !app_assoc.
        -- cbn. change (count_posts new <= List.length attempts)%nat in Hp.
           unfold count_posts in *. cbn. lia.
        -- exact Hs.
    + exists [EPost messages].
      destruct (response_content body) as [s|[]]; cbn; repeat split; lia.
Qed.

Lemma py_range_length n : List.length (py_range n) = Z.to_nat n.
Proof. unfold py_range. now rewrite length_map, length_seq. Qed.

Lemma call_llm_frame history system_prompt n st :
  exists new,
    snd (call_llm history system_prompt n st)
    = {| hist := hist st; events := events st ++ new |}
    /\ (count_posts new <= Z.to_nat n)%nat
    /\ count_steps new = 0%nat.
Proof.
  unfold call_llm. destruct (negb key_configured).
  - exists []. cbn. rewrite app_nil_r. repeat split; [now destruct st | lia].
  - rewrite <- py_range_length. apply retry_loop_frame.
Qed.

Lemma think_frame system_prompt step st :
  exists new,
    snd (think system_prompt step st)
    = {| hist := hist st; events := events st ++ EStep (step + 1) :: new |}
    /\ (count_posts new <= Z.to_nat DEFAULT_MAX_RETRIES)%nat
    /\ count_steps new = 0%nat.
Proof.
  unfold think, bind, emit, get_history. cbn [hist events].
  destruct (call_llm_frame (hist st) system_prompt DEFAULT_MAX_RETRIES
              {| hist := hist st; events := events st ++ [EStep (step + 1)] |})
    as (new & E & Hp & Hs).
  exists new.
  destruct (call_llm _ _ _ _) as [[text|e] st1]; cbn [snd] in *; subst st1;
    cbn [hist events]; rewrite <- app_assoc; now repeat split.
Qed.

Lemma think_hist system_prompt step st r st1 :
  think system_prompt step st = (r, st1) -> hist st1 = hist st.
Proof.
  intros H. destruct (think_frame system_prompt step st) as (new & E & _).
  rewrite H in E. cbn [snd] in E. now subst st1.
Qed.

(** One turn of the loop: the model is asked, and the reply decides. *)
Lemma agent_steps_cons system_prompt step rest st :
  agent_steps system_prompt (step :: rest) st =
  match think system_prompt step st with
  | (Ok llm_response, st1) =>
      match step_body (hist st) llm_response with
      | Return value => (Ok value, st1)
      | Continue history' =>
          agent_steps system_prompt rest {| hist := history'; events := events st1 |}
      | Throw history' e => (Raise e, {| hist := history'; events := events st1 |})
      end
  | (Raise e, st1) => (Raise e, st1)
  end.
Proof.
  cbn [agent_steps]. unfold think, bind, emit, get_history, set_history, ret, raise.
  cbn [hist events].
  destruct (call_llm _ _ _ _) as [[text|e] st1]; [|reflexivity].
  now destruct (step_body (hist st) text).
Qed.

Lemma agent_steps_return system_prompt step rest st text st1 value :
  think system_prompt step st = (Ok text, st1) ->
  step_body (hist st) text = Return value ->
  agent_steps system_prompt (step :: rest) st = (Ok value, st1).
Proof. intros H1 H2. now rewrite agent_steps_cons, H1, H2. Qed.

Lemma agent_steps_continue system_prompt step rest st text st1 history' :
  think system_prompt step st = (Ok text, st1) ->
  step_body (hist st) text = Continue history' ->
  agent_steps system_prompt (step :: rest) st
  = agent_steps system_prompt rest {| hist := history'; events := events st1 |}.
Proof. intros H1 H2. now rewrite agent_steps_cons, H1, H2. Qed.

(** A handled exception of the dispatch becomes an observation. *)
Lemma step_body_handled history text payload e :
  py_in FINAL_MARKER text = false ->
  action_match text = Some payload ->
  execute_action payload = Raise e ->
  handled e = true ->
  step_body history text
  = Continue (history ++ [Msg r_assistant text;
                          Msg r_tool (ERROR_PREFIX ++ str_of_exn e)]).
Proof.
  intros Hf Hm He Hh. unfold step_body. rewrite Hf, Hm, He, Hh.
  now rewrite <- app_assoc.
Qed.

(** Any other exception of the dispatch leaves the loop. *)
Lemma step_body_unhandled history text payload e :
  py_in FINAL_MARKER text = false ->
  action_match text = Some payload ->
  execute_action payload = Raise e ->
  handled e = false ->
  step_body history text = Throw (history ++ [Msg r_assistant text]) e.
Proof.
  intros Hf Hm He Hh. unfold step_body. now rewrite Hf, Hm, He, Hh.
Qed.

(** C2: a reply that contains the final-answer marker is a final
    answer, whatever else it contains (an action region included):
    the answer is what follows the first occurrence of the marker,
    stripped of the white space around it; the loop returns it at
    once and the history is as it was before the step. *)
Theorem C2_final_answer text :
  py_in FINAL_MARKER text = true ->
  exists pre post answer,
    text = pre ++ FINAL_MARKER ++ post
    /\ (forall pre' post', text = pre' ++ FINAL_MARKER ++ post' ->
                           (List.length pre <= List.length pre')%nat)
    /\ spec_trimmed post answer
    /\ (forall history, step_body history text = Return (DONE_PREFIX ++ answer))
    /\ (forall system_prompt step rest st st1,
           think system_prompt step st = (Ok text, st1) ->
           agent_steps system_prompt (step :: rest) st = (Ok (DONE_PREFIX ++ answer), st1)
           /\ hist st1 = hist st).
Proof.
  intros Hin. destruct (partition_in _ _ Hin) as (pre & post & P).
  destruct (partition_spec _ _ P) as [E Hmin].
  assert (Hbody : forall history,
             step_body history text = Return (DONE_PREFIX ++ py_strip post)).
  { intros history. unfold step_body, py_split1. now rewrite Hin, P. }
  exists pre, post, (py_strip post).
  split; [exact E|]. split; [exact Hmin|]. split; [apply py_strip_spec|].
  split; [exact Hbody|]. intros system_prompt step rest st st1 Ht. split.
  - eapply agent_steps_return; eauto.
  - eapply think_hist; eauto.
Qed.

(** C8: a reply with neither the final-answer marker nor an action
    region ends the run with the failure message; nothing happens
    after the model call that produced it. *)
Theorem C8_ambiguous_reply text :
  py_in FINAL_MARKER text = false ->
  (forall payload, ~ action_region text payload) ->
  (forall history, step_body history text = Return FAILED_MESSAGE)
  /\ (forall system_prompt step rest st st1,
         think system_prompt step st = (Ok text, st1) ->
         agent_steps system_prompt (step :: rest) st = (Ok FAILED_MESSAGE, st1)).
Proof.
  intros Hf Hr. apply action_match_none in Hr.
  assert (Hbody : forall history, step_body history text = Return FAILED_MESSAGE).
  { intros history. unfold step_body. now rewrite Hf, Hr. }
  split; [exact Hbody|]. intros. eapply agent_steps_return; eauto.
Qed.

(** A step's reply and observation reach the next request as an
    assistant message and a user message, after what was sent before. *)
Lemma build_messages_step history system_prompt reply observation :
  history <> [] ->
  build_messages (history ++ [Msg r_assistant reply; Msg r_tool observation]) system_prompt
  = build_messages history system_prompt
      ++ [Msg r_assistant reply; Msg r_user observation].
Proof.
  intros Hne. destruct history as [|m0 rest]; [contradiction|].
  rewrite !build_messages_eq. cbn [app py_tail tl].
  unfold translate. rewrite flat_map_app, app_assoc. reflexivity.
Qed.

(** With the key configured, a model call opens with its request. *)
Lemma call_llm_first_post history system_prompt st :
  key_configured = true ->
  exists more,
    events (snd (call_llm history system_prompt DEFAULT_MAX_RETRIES st))
    = events st ++ EPost (build_messages history system_prompt) :: more.
Proof.
  intros Hk. unfold call_llm. rewrite Hk. cbn [negb].
  set (messages := build_messages history system_prompt).
  change (py_range DEFAULT_MAX_RETRIES) with (0 :: [1; 2])%Z.
  set (rest := [1; 2]%Z). cbn [retry_loop]. unfold bind at 1, post at 1.
  destruct (endpoint (events st) messages) as [e|body|x].
  - change (0 =? DEFAULT_MAX_RETRIES - 1)%Z with false. cbv iota.
    unfold bind at 1, emit at 1. cbn [hist events].
    destruct (retry_loop_frame messages DEFAULT_MAX_RETRIES rest
                {| hist := hist st;
                   events := (events st ++ [EPost messages]) ++ [ESleep (2 ^ 0)] |})
      as (new & E & _).
    rewrite E. cbn [events]. exists (ESleep (2 ^ 0) :: new).
    now rewrite <- !app_assoc.
  - exists []. destruct (response_content body) as [r|[]]; reflexivity.
  - exists []. destruct x; reflexivity.
Qed.

(** The loop only adds to the trace. *)
Lemma agent_steps_extends system_prompt steps : forall st,
  exists more, events (snd (agent_steps system_prompt steps st)) = events st ++ more.
Proof.
  induction steps as [|step steps IH]; intros st.
  - exists []. cbn. now rewrite app_nil_r.
  - rewrite agent_steps_cons.
    destruct (think_frame system_prompt step st) as (new & E & _).
    destruct (think system_prompt step st) as [[text|e] st1]; cbn [snd] in E; subst st1.
    + destruct (step_body (hist st) text) as [value|history'|history' e].
      * eexists. reflexivity.
      * destruct (IH {| hist := history';
                        events := events st ++ EStep (step + 1) :: new |})
          as (more & E2).
        cbn [events] in *. rewrite E2. exists ((EStep (step + 1) :: new) ++ more).
        now rewrite app_assoc.
      * eexists. reflexivity.
    + eexists. reflexivity.
Qed.

(** After a step that went through dispatch, and with a step left in
    the budget, the run opens that step and asks the model again, with
    a request made from the history the dispatch has left. *)
Lemma next_step_request system_prompt step next rest st text st1 history' :
  key_configured = true ->
  think system_prompt step st = (Ok text, st1) ->
  step_body (hist st) text = Continue history' ->
  exists more,
    events (snd (agent_steps system_prompt (step :: next :: rest) st))
    = events st1 ++ EStep (next + 1)
        :: EPost (build_messages history' system_prompt) :: more.
Proof.
  intros Hk Ht Hb.
  rewrite (@agent_steps_continue system_prompt step (next :: rest) st text st1 history'
             Ht Hb), agent_steps_cons.
  unfold think, bind, emit, get_history. cbn [hist events].
  destruct (call_llm_first_post history' system_prompt
              {| hist := history'; events := events st1 ++ [EStep (next + 1)] |} Hk)
    as (more & E).
  cbn [events] in E. rewrite <- app_assoc in E. cbn [app] in E.
  destruct (call_llm history' system_prompt DEFAULT_MAX_RETRIES _) as [[reply|e] st2];
    cbn [snd] in E; [|now exists more].
  destruct (step_body history' reply) as [value|history2|history2 e2];
    [now exists more | | now exists more].
  destruct (agent_steps_extends system_prompt rest
              {| hist := history2; events := events st2 |}) as (more2 & E2).
  cbn [events] in E2. rewrite E2, E. exists (more ++ more2).
  now rewrite <- app_assoc.
Qed.

(** A model call that returns has found the API key. *)
Lemma think_ok_key system_prompt step st text st1 :
  think system_prompt step st = (Ok text, st1) -> key_configured = true.
Proof.
  unfold think, bind, emit, get_history, call_llm.
  destruct key_configured; [reflexivity | discriminate].
Qed.

(** The same, for the observation of an error: the next request ends
    with the reply and, as a user message, the observation. *)
Lemma error_observation_reaches_model system_prompt step next rest st text st1 description :
  hist st <> [] ->
  think system_prompt step st = (Ok text, st1) ->
  step_body (hist st) text
  = Continue (hist st ++ [Msg r_assistant text; Msg r_tool (ERROR_PREFIX ++ description)]) ->
  exists more,
    events (snd (agent_steps system_prompt (step :: next :: rest) st))
    = events st1 ++ EStep (next + 1)
        :: EPost (build_messages (hist st) system_prompt
                    ++ [Msg r_assistant text; Msg r_user (ERROR_PREFIX ++ description)])
        :: more.
Proof.
  intros Hne Ht Hb. rewrite <- (build_messages_step system_prompt _ _ Hne).
  eapply next_step_request; eauto. eapply think_ok_key; eauto.
Qed.



(** C7: an action whose tool name is a string that the registry does
    not have gives the observation
    [Observation: Tool Execution Error: Tool <name> not registered.];
    the run does not end there: the loop goes on with the steps that
    remain, one step having been used, and when a step remains it
    opens that step and sends the model a request that ends with the
    reply and, as a user message, this observation. *)
Theorem C7_unregistered_tool text payload d name args :
  py_in FINAL_MARKER text = false ->
  action_match text = Some payload ->
  json_loads payload = Some (VDict d) ->
  dict_get d (lit "tool") = Some (VStr name) ->
  dict_get d (lit "args") = Some args ->
  registry_get AVAILABLE_TOOLS name = None ->
  (forall history,
      step_body history text
      = Continue (history ++ [Msg r_assistant text;
                              Msg r_tool (ERROR_PREFIX ++ lit "Tool " ++ name
                                            ++ lit " not registered.")]))
  /\ (forall system_prompt step rest st st1,
         think system_prompt step st = (Ok text, st1) ->
         agent_steps system_prompt (step :: rest) st
         = agent_steps system_prompt rest
             {| hist := hist st ++ [Msg r_assistant text;
                                    Msg r_tool (ERROR_PREFIX ++ lit "Tool " ++ name
                                                  ++ lit " not registered.")];
                events := events st1 |})
  /\ (forall system_prompt step next rest st st1,
         hist st <> [] ->
         think system_prompt step st = (Ok text, st1) ->
         exists more,
           events (snd (agent_steps system_prompt (step :: next :: rest) st))
           = events st1 ++ EStep (next + 1)
               :: EPost (build_messages (hist st) system_prompt
                           ++ [Msg r_assistant text;
                               Msg r_user (ERROR_PREFIX ++ lit "Tool " ++ name
                                             ++ lit " not registered.")])
               :: more).
Proof.
  intros Hf Hm Hj Ht Ha Hreg.
  assert (He : execute_action payload
               = Raise (ValueError (lit "Tool " ++ name ++ lit " not registered."))).
  { unfold execute_action. rewrite Hj. cbn [getitem_key]. rewrite Ht, Ha.
    cbn [bind_result lookup_tool]. now rewrite Hreg. }
  assert (Hbody : forall history,
             step_body history text
             = Continue (history ++ [Msg r_assistant text;
                                     Msg r_tool (ERROR_PREFIX ++ lit "Tool " ++ name
                                                   ++ lit " not registered.")])).
  { intros. now rewrite (step_body_handled history _ Hf Hm He eq_refl). }
  split; [exact Hbody|]. split.
  - intros. eapply agent_steps_continue; eauto.
  - intros. eapply error_observation_reaches_model; eauto.
Qed.
End Loop.

(** ** The example action *)

Lemma example_action_decoded {RT : Runtime} :
  json_loads EXAMPLE_ACTION
  = Some (VDict [(lit "tool", VStr (lit "add_numbers"));
                 (lit "args", VDict [(lit "a", VInt 123); (lit "b", VInt 456)])]).
Proof. vm_compute. reflexivity. Qed.

(** The pattern matches at an [[ACTION_START]] that is followed by the
    example action, with any white space around it, and the group is
    the whole action: the inner closing brace is not followed by
    [[ACTION_END]], so the group goes on to the outer one. *)
Lemma example_action_located ws1 ws2 post :
  forallb isspace ws1 = true -> forallb isspace ws2 = true ->
  action_re_at (ACTION_START ++ ws1 ++ EXAMPLE_ACTION ++ ws2 ++ ACTION_END ++ post)
  = Some EXAMPLE_ACTION.
Proof.
  intros H1 H2. unfold action_re_at, re_literal. rewrite strip_prefix_self.
  assert (Hend : forall taken,
             re_spaces (re_literal ACTION_END
                          (fun _ => Some (LBRACE :: taken ++ [RBRACE])))
               (ws2 ++ ACTION_END ++ post)
             = Some (LBRACE :: taken ++ [RBRACE])).
  { intros taken. apply re_spaces_all; [exact H2 | reflexivity |].
    unfold re_literal. now rewrite strip_prefix_self. }
  let e := eval vm_compute in EXAMPLE_ACTION in change EXAMPLE_ACTION with e.
  apply re_spaces_all; [exact H1 | reflexivity |].
  unfold action_re_close.
  cbn [app re_char re_lazy_any N.eqb Pos.eqb LBRACE RBRACE re_spaces].
  change (isspace 125) with false. cbv iota.
  change (re_literal ACTION_END ?k (125%N :: ?x)) with (@None pystr). cbv iota.
  match goal with
  | |- context [re_lazy_any _ ?t (ws2 ++ _)] =>
      pose proof (Hend (removelast t)) as Hx; cbn [removelast app] in Hx
  end.
  rewrite Hx. reflexivity.
Qed.

Section Examples.
Context {RT : Runtime}.

Lemma example_action_executed :
  execute_action EXAMPLE_ACTION = Ok (lit "Observation: 579").
Proof. unfold execute_action. rewrite example_action_decoded. reflexivity. Qed.

(** C9: in a reply without the final-answer marker whose first
    [[ACTION_START]] is followed by the example action and
    [[ACTION_END]], white space allowed around the action, the located
    payload is the whole action, nested braces included; it decodes
    to the tool [add_numbers] with the arguments [a = 123] and
    [b = 456], and the step records the reply and the observation
    [Observation: 579]. *)
Theorem C9_example_action text pre ws1 ws2 post :
  py_in FINAL_MARKER text = false ->
  partition ACTION_START text
  = Some (pre, ws1 ++ EXAMPLE_ACTION ++ ws2 ++ ACTION_END ++ post) ->
  forallb isspace ws1 = true ->
  forallb isspace ws2 = true ->
  action_match text = Some EXAMPLE_ACTION
  /\ json_loads EXAMPLE_ACTION
     = Some (VDict [(lit "tool", VStr (lit "add_numbers"));
                    (lit "args", VDict [(lit "a", VInt 123); (lit "b", VInt 456)])])
  /\ add_numbers (VInt 123) (VInt 456) = Ok (VInt 579)
  /\ (forall history,
         step_body history text
         = Continue (history ++ [Msg r_assistant text;
                                 Msg r_tool (lit "Observation: 579")])).
Proof.
  intros Hf Hp H1 H2.
  assert (Hm : action_match text = Some EXAMPLE_ACTION).
  { eapply action_match_first; [exact Hp|]. now apply example_action_located. }
  split; [exact Hm|]. split; [exact example_action_decoded|].
  split; [reflexivity|].
  intros history. unfold step_body.
  rewrite Hf, Hm, example_action_executed. now rewrite <- app_assoc.
Qed.

(** C4 at the failing input: the model asks for [add_numbers] and
    leaves out the argument [b].  The call fails with a [TypeError],
    which the handler of line 164 does not list, and the exception
    leaves [run_agent_loop]. *)
Theorem C4_type_error_escapes initial_user_prompt system_prompt :
  execute_action MISSING_ARG_ACTION = Raise MISSING_ARG_ERROR
  /\ handled MISSING_ARG_ERROR = false
  /\ fst (@run_agent_loop RT (constant_model MISSING_ARG_REPLY)
            initial_user_prompt system_prompt DEFAULT_MAX_STEPS)
     = Raise MISSING_ARG_ERROR.
Proof. split; [|split]; vm_compute; reflexivity. Qed.

(** C5 at the failing input: with one step allowed and the same
    request, the run opens one step and ends with the [TypeError],
    not with the budget message. *)
Theorem C5_single_step_type_error initial_user_prompt system_prompt :
  fst (@run_agent_loop RT (constant_model MISSING_ARG_REPLY)
         initial_user_prompt system_prompt 1)
  = Raise MISSING_ARG_ERROR
  /\ count_steps (events (snd (@run_agent_loop RT (constant_model MISSING_ARG_REPLY)
                                 initial_user_prompt system_prompt 1))) = 1%nat
  /\ py_in FINAL_MARKER MISSING_ARG_REPLY = false
  /\ action_match MISSING_ARG_REPLY = Some MISSING_ARG_ACTION.
Proof. split; [|split; [|split]]; vm_compute; reflexivity. Qed.
End Examples.

Lemma C9_example_action_witness :
  @step_body plain_runtime [Msg r_system (lit "s"); Msg r_user (lit "123 + 456?")] EXAMPLE_REPLY
  = Continue [Msg r_system (lit "s"); Msg r_user (lit "123 + 456?");
              Msg r_assistant EXAMPLE_REPLY; Msg r_tool (lit "Observation: 579")].
Proof.
  refine (proj2 (proj2 (proj2
    (@C9_example_action plain_runtime EXAMPLE_REPLY
       (lit "Thought: I will use add_numbers." ++ [10%N]) [10%N] [10%N] [] _ _ _ _))) _).
  - vm_compute. reflexivity.
  - vm_compute. reflexivity.
  - reflexivity.
  - reflexivity.
Defined.

(** ** The retry schedule and the step budget *)

Lemma spec_retry_events_more messages k i :
  spec_retry_events messages (S (S k)) i
  = EPost messages :: ESleep (2 ^ i) :: spec_retry_events messages (S k) (i + 1).
Proof. reflexivity. Qed.

Lemma spec_retry_events_posts messages k : forall i,
  count_posts (spec_retry_events messages k i) = k.
Proof.
  induction k as [|k IH]; intros i; [reflexivity|].
  destruct k as [|k]; [reflexivity|].
  rewrite spec_retry_events_more.
  change (count_posts (EPost messages :: ESleep (2 ^ i)
                         :: spec_retry_events messages (S k) (i + 1)))
    with (S (count_posts (spec_retry_events messages (S k) (i + 1)))).
  now rewrite IH.
Qed.

Lemma spec_retry_events_sleeps messages k : forall i,
  sleeps (spec_retry_events messages (S k) i)
  = map (fun j => 2 ^ (i + Z.of_nat j))%Z (seq 0 k).
Proof.
  induction k as [|k IH]; intros i; [reflexivity|].
  rewrite spec_retry_events_more.
  change (sleeps (EPost messages :: ESleep (2 ^ i)
                    :: spec_retry_events messages (S k) (i + 1)))
    with ((2 ^ i)%Z :: sleeps (spec_retry_events messages (S k) (i + 1))).
  rewrite IH. cbn [seq map]. rewrite Z.add_0_r. f_equal.
  rewrite <- seq_shift, map_map. apply map_ext. intros j. f_equal. lia.
Qed.

Lemma spec_retry_events_last messages k : forall i,
  last (spec_retry_events messages (S k) i) (ESleep 0) = EPost messages.
Proof.
  induction k as [|k IH]; intros i; [reflexivity|].
  rewrite spec_retry_events_more.
  specialize (IH (i + 1)%Z).
  destruct (spec_retry_events messages (S k) (i + 1)) eqn:E; [discriminate|].
  exact IH.
Qed.

Lemma key_or_index_missing_raises body :
  key_or_index_missing body = true ->
  exists description,
    (response_content body = Raise (KeyError description)
     \/ response_content body = Raise (IndexError description))
    /\ parse_error_text body = lit "Error: Failed to parse API response: " ++ description.
Proof.
  unfold key_or_index_missing, response_content, parse_error_text.
  destruct body as [| | | | | |d]; try discriminate. cbn [getitem_key].
  destruct (dict_get d (lit "choices")) as [choices|]; [|cbn; eauto].
  cbn [bind_result].
  destruct choices as [| | | | |l|]; try discriminate.
  destruct l as [|first l]; [cbn; eauto|].
  cbn [getitem_0 bind_result].
  destruct first as [| | | | | |c]; try discriminate. cbn [getitem_key].
  destruct (dict_get c (lit "message")) as [msg|]; [|cbn; eauto].
  cbn [bind_result].
  destruct msg as [| | | | | |m]; try discriminate. cbn [getitem_key].
  destruct (dict_get m (lit "content")); [discriminate | cbn; eauto].
Qed.

Lemma spec_retry_events_removelast messages k i :
  removelast (spec_retry_events messages (S (S k)) i)
  = EPost messages :: ESleep (2 ^ i) :: removelast (spec_retry_events messages (S k) (i + 1)).
Proof.
  rewrite spec_retry_events_more.
  destruct (spec_retry_events messages (S k) (i + 1)) as [|x l] eqn:E; [|reflexivity].
  destruct k; discriminate E.
Qed.

Section Retry.
Context {RT : Runtime} {DP : Deployment}.

Lemma run_state_eta st : {| hist := hist st; events := events st |} = st.
Proof. now destruct st. Qed.

(** The retry loop when every attempt fails, from attempt [i] on;
    [text] is what the exception of an attempt says, given the trace
    before it. *)
Lemma retry_loop_all_fail messages text k : forall i st,
  (forall tr, endpoint tr messages = RequestException (text tr)) ->
  retry_loop messages (Z.of_nat (i + k)) (map Z.of_nat (seq i k)) st
  = (Ok (match k with
         | O => lit "Error: Maximum retry attempts exceeded."
         | S _ =>
             request_error_text (Z.of_nat (i + k)) (Z.of_nat (i + k))
               (text (events st
                        ++ removelast (spec_retry_events messages k (Z.of_nat i))))
         end),
     {| hist := hist st;
        events := events st ++ spec_retry_events messages k (Z.of_nat i) |}).
Proof.
  induction k as [|k IH]; intros i st Hfail.
  - cbn. now rewrite app_nil_r, run_state_eta.
  - cbn [seq map retry_loop]. unfold bind at 1, post at 1. rewrite Hfail.
    destruct k as [|k].
    + replace (Z.of_nat (i + 1) - 1)%Z with (Z.of_nat i) by lia.
      rewrite Z.eqb_refl. cbn [spec_retry_events removelast]. rewrite app_nil_r.
      unfold ret, request_failed_msg, request_error_text.
      replace (Z.of_nat i + 1)%Z with (Z.of_nat (i + 1)) by lia. reflexivity.
    + assert ((Z.of_nat i =? Z.of_nat (i + S (S k)) - 1)%Z = false) as ->
          by (apply Z.eqb_neq; lia).
      unfold bind at 1, emit at 1. cbn [hist events].
      replace (i + S (S k))%nat with (S i + S k)%nat by lia.
      rewrite (IH (S i) {| hist := hist st;
                           events := (events st ++ [EPost messages])
                                       ++ [ESleep (2 ^ Z.of_nat i)] |} Hfail).
      cbn [hist events]. rewrite spec_retry_events_removelast, spec_retry_events_more.
      rewrite <- !app_assoc. cbn [app].
      now rewrite Nat2Z.inj_succ, Z.add_1_r.
Qed.

(** When every attempt fails with a transport error, [call_llm] makes
    exactly [max_retries] attempts, sleeps [2 ^ i] between attempt [i]
    and the next and not after the last one, and returns
    [Error: API request failed (attempt n/n): ] followed by the text of
    the last attempt's exception, [n] being [max_retries] (which the
    message can print). *)
Theorem every_attempt_fails history system_prompt max_retries st text :
  key_configured = true ->
  (0 < max_retries)%Z ->
  (int_digits max_retries <= INT_MAX_STR_DIGITS)%nat ->
  (forall tr, endpoint tr (build_messages history system_prompt)
              = RequestException (text tr)) ->
  call_llm history system_prompt max_retries st
  = (Ok (lit "Error: API request failed (attempt " ++ str_of_int max_retries
           ++ lit "/" ++ str_of_int max_retries ++ lit "): "
           ++ text (events st
                      ++ removelast (spec_retry_events
                                       (build_messages history system_prompt)
                                       (Z.to_nat max_retries) 0))),
     {| hist := hist st;
        events := events st
                    ++ spec_retry_events (build_messages history system_prompt)
                         (Z.to_nat max_retries) 0 |})
  /\ count_posts (spec_retry_events (build_messages history system_prompt)
                    (Z.to_nat max_retries) 0) = Z.to_nat max_retries
  /\ sleeps (spec_retry_events (build_messages history system_prompt)
               (Z.to_nat max_retries) 0)
     = map (fun i => 2 ^ i)%Z (py_range (max_retries - 1))
  /\ last (spec_retry_events (build_messages history system_prompt)
             (Z.to_nat max_retries) 0) (ESleep 0)
     = EPost (build_messages history system_prompt).
Proof.
  intros Hkey Hn _ Hfail. set (messages := build_messages history system_prompt).
  pose proof (retry_loop_all_fail messages text (Z.to_nat max_retries) 0 st Hfail) as E.
  cbn [Nat.add] in E. rewrite Z2Nat.id in E by lia.
  destruct (Z.to_nat max_retries) as [|k] eqn:Ek; [lia|].
  split; [|split; [|split]].
  - unfold call_llm. rewrite Hkey. cbn [negb]. unfold py_range. rewrite Ek. exact E.
  - apply spec_retry_events_posts.
  - unfold py_range. replace (Z.to_nat (max_retries - 1)) with k by lia.
    rewrite spec_retry_events_sleeps, map_map. reflexivity.
  - apply spec_retry_events_last.
Qed.

(** A response in which the path of line 85 ends at an object without
    the key, or at an empty list of choices, ends the retry loop at the
    attempt that received it: no further request, no delay, and the
    string [Error: Failed to parse API response: ] followed by the
    missing key in quotes or by [list index out of range]. *)
Theorem missing_field_returns_error messages max_retries attempt rest st body :
  endpoint (events st) messages = Response body ->
  key_or_index_missing body = true ->
  retry_loop messages max_retries (attempt :: rest) st
  = (Ok (parse_error_text body),
     {| hist := hist st; events := events st ++ [EPost messages] |}).
Proof.
  intros Hresp Hmiss. cbn [retry_loop]. unfold bind at 1, post at 1. rewrite Hresp.
  destruct (key_or_index_missing_raises body Hmiss) as (d & [E | E] & ->);
    rewrite E; reflexivity.
Qed.

(** C6: a 2xx response whose body is a list, or has [null] for its
    choices, is a response without the expected fields, and [call_llm]
    does not return an error string for it: the [TypeError] of the
    indexing is none of the classes that line 100 lists, so it leaves
    [call_llm] after the one request, and the run with it. *)
Theorem C6_wrong_shape_escapes history initial_user_prompt system_prompt st :
  response_content (VList [])
  = Raise (TypeError (lit "list indices must be integers or slices, not str"))
  /\ response_content NULL_CHOICES_BODY
     = Raise (TypeError (lit "'NoneType' object is not subscriptable"))
  /\ @call_llm null_choices_model history system_prompt DEFAULT_MAX_RETRIES st
  = (Raise (TypeError (lit "'NoneType' object is not subscriptable")),
     {| hist := hist st;
        events := events st ++ [EPost (build_messages history system_prompt)] |})
  /\ @run_agent_loop RT null_choices_model initial_user_prompt system_prompt
       DEFAULT_MAX_STEPS
     = (Raise (TypeError (lit "'NoneType' object is not subscriptable")),
        {| hist := [Msg r_system system_prompt; Msg r_user initial_user_prompt];
           events := [EStep 1;
                      EPost (build_messages
                               [Msg r_system system_prompt; Msg r_user initial_user_prompt]
                               system_prompt)] |}).
Proof. split; [|split; [|split]]; reflexivity. Qed.

(** Every run stays within its budget: it opens at most as many steps
    as the list of steps has, and sends at most [DEFAULT_MAX_RETRIES]
    requests in each. *)
Lemma agent_steps_bounds system_prompt steps : forall st,
  exists new,
    events (snd (agent_steps system_prompt steps st)) = events st ++ new
    /\ (count_steps new <= List.length steps)%nat
    /\ (count_posts new <= count_steps new * Z.to_nat DEFAULT_MAX_RETRIES)%nat.
Proof.
  induction steps as [|step steps IH]; intros st.
  - exists []. cbn. rewrite app_nil_r. repeat split; lia.
  - rewrite agent_steps_cons.
    destruct (think_frame system_prompt step st) as (new1 & E & Hp & Hs).
    assert (Hone : count_steps (EStep (step + 1) :: new1) = 1%nat
                   /\ (count_posts (EStep (step + 1) :: new1)
                       <= Z.to_nat DEFAULT_MAX_RETRIES)%nat).
    { change (count_steps (EStep (step + 1) :: new1)) with (S (count_steps new1)).
      change (count_posts (EStep (step + 1) :: new1)) with (count_posts new1).
      split; [now rewrite Hs | exact Hp]. }
    destruct Hone as [H1 H2].
    destruct (think system_prompt step st) as [[text|e] st1]; cbn [snd] in E; subst st1.
    + destruct (step_body (hist st) text) as [value|history'|history' e].
      * exists (EStep (step + 1) :: new1). cbn [snd events List.length].
        rewrite H1. repeat split; lia.
      * destruct (IH {| hist := history';
                        events := events st ++ EStep (step + 1) :: new1 |})
          as (new2 & E2 & Hs2 & Hp2).
        cbn [events] in *. exists ((EStep (step + 1) :: new1) ++ new2).
        rewrite E2, app_assoc, count_steps_app, count_posts_app, H1. cbn [List.length].
        repeat split; nia.
      * exists (EStep (step + 1) :: new1). cbn [snd events List.length].
        rewrite H1. repeat split; lia.
    + exists (EStep (step + 1) :: new1). cbn [snd events List.length].
      rewrite H1. repeat split; lia.
Qed.

(** A run opens at most [max_steps] steps and sends at most
    [max_steps * DEFAULT_MAX_RETRIES] requests. *)
Lemma run_agent_loop_bounds initial_user_prompt system_prompt max_steps :
  (count_steps (events (snd (run_agent_loop initial_user_prompt system_prompt max_steps)))
   <= Z.to_nat max_steps)%nat
  /\ (count_posts (events (snd (run_agent_loop initial_user_prompt system_prompt max_steps)))
      <= Z.to_nat max_steps * Z.to_nat DEFAULT_MAX_RETRIES)%nat.
Proof.
  unfold run_agent_loop.
  destruct (agent_steps_bounds system_prompt (py_range max_steps)
              (initial_state initial_user_prompt system_prompt))
    as (new & E & Hs & Hp).
  rewrite E, py_range_length in *. cbn [initial_state events app].
  split; [exact Hs | nia].
Qed.

(** With one step allowed, a step that goes through dispatch and
    comes back is the only one, and the run ends with the budget
    message. *)
Lemma single_step_budget initial_user_prompt system_prompt text st1 history' :
  think system_prompt 0 (initial_state initial_user_prompt system_prompt)
  = (Ok text, st1) ->
  step_body (hist (initial_state initial_user_prompt system_prompt)) text
  = Continue history' ->
  run_agent_loop initial_user_prompt system_prompt 1
  = (Ok BUDGET_MESSAGE, {| hist := history'; events := events st1 |})
  /\ count_steps (events st1) = 1%nat.
Proof.
  intros Ht Hb. unfold run_agent_loop. change (py_range 1) with [0%Z].
  rewrite (agent_steps_continue _ _ _ _ Ht Hb). split; [reflexivity|].
  destruct (think_frame system_prompt 0 (initial_state initial_user_prompt system_prompt))
    as (new & E & _ & Hs).
  rewrite Ht in E. cbn [snd] in E. subst st1. cbn [events initial_state app].
  change (count_steps (EStep (0 + 1) :: new)) with (S (count_steps new)).
  now rewrite Hs.
Qed.

(** Without an API key the run ends at its first model call, with
    the [ValueError] of line 37 and no request sent. *)
Lemma missing_key_raises initial_user_prompt system_prompt max_steps :
  key_configured = false ->
  (0 < max_steps)%Z ->
  exists msg st,
    run_agent_loop initial_user_prompt system_prompt max_steps = (Raise (ValueError msg), st)
    /\ count_posts (events st) = 0%nat.
Proof.
  intros Hk Hpos. unfold run_agent_loop, py_range.
  destruct (Z.to_nat max_steps) as [|k] eqn:E; [lia|].
  cbn [seq map]. rewrite agent_steps_cons.
  unfold think, bind, emit, get_history, call_llm. rewrite Hk. cbn.
  eexists _, _. split; reflexivity.
Qed.
End Retry.

Lemma every_attempt_fails_witness :
  @call_llm dead_endpoint [Msg r_system (lit "s"); Msg r_user (lit "u")] (lit "s") 3
    {| hist := []; events := [] |}
  = (Ok (lit "Error: API request failed (attempt 3/3): timed out"),
     {| hist := [];
        events := [EPost [Msg r_system (lit "s"); Msg r_user (lit "u")]; ESleep 1;
                   EPost [Msg r_system (lit "s"); Msg r_user (lit "u")]; ESleep 2;
                   EPost [Msg r_system (lit "s"); Msg r_user (lit "u")]] |}).
Proof.
  refine (proj1 (@every_attempt_fails dead_endpoint
                   [Msg r_system (lit "s"); Msg r_user (lit "u")] (lit "s") 3
                   {| hist := []; events := [] |} (fun _ => lit "timed out")
                   eq_refl _ _ _)).
  - reflexivity.
  - apply Nat.leb_le. vm_compute. reflexivity.
  - reflexivity.
Defined.

Lemma missing_field_returns_error_witness :
  @retry_loop no_choices_model [Msg r_user (lit "u")] 3 [0; 1; 2]%Z
    {| hist := []; events := [] |}
  = (Ok (lit "Error: Failed to parse API response: 'choices'"),
     {| hist := []; events := [EPost [Msg r_user (lit "u")]] |}).
Proof.
  refine (@missing_field_returns_error no_choices_model
            [Msg r_user (lit "u")] 3 0%Z [1; 2]%Z
            {| hist := []; events := [] |} (VDict []) _ _);
    reflexivity.
Defined.

(** ** The theorems at concrete replies *)

(** The marker wins over an action region that precedes it. *)
Example final_answer_after_action :
  @step_body plain_runtime []
    (ACTION_START ++ EXAMPLE_ACTION ++ ACTION_END ++ lit " Final Answer:  579 ")
  = Return (DONE_PREFIX ++ lit "579").
Proof. vm_compute. reflexivity. Qed.

Lemma C2_final_answer_witness :
  exists pre post answer,
    ACTION_START ++ EXAMPLE_ACTION ++ ACTION_END ++ lit " Final Answer:  579 "
    = pre ++ FINAL_MARKER ++ post
    /\ spec_trimmed post answer
    /\ forall history,
        @step_body plain_runtime history
          (ACTION_START ++ EXAMPLE_ACTION ++ ACTION_END ++ lit " Final Answer:  579 ")
        = Return (DONE_PREFIX ++ answer).
Proof.
  destruct (@C2_final_answer plain_runtime dead_endpoint
              (ACTION_START ++ EXAMPLE_ACTION ++ ACTION_END ++ lit " Final Answer:  579 ")
              eq_refl)
    as (pre & post & answer & E & _ & Htrim & Hbody & _).
  exists pre, post, answer. repeat split; assumption.
Defined.



Lemma C7_unregistered_tool_witness :
  @step_body plain_runtime [Msg r_system (lit "s"); Msg r_user (lit "2 * 3?")]
    UNKNOWN_TOOL_REPLY
  = Continue [Msg r_system (lit "s"); Msg r_user (lit "2 * 3?");
              Msg r_assistant UNKNOWN_TOOL_REPLY;
              Msg r_tool (lit "Observation: Tool Execution Error: Tool multiply not registered.")]
  /\ exists more,
      events (snd (@agent_steps plain_runtime (constant_model UNKNOWN_TOOL_REPLY) (lit "s")
                     [0; 1]%Z (initial_state (lit "2 * 3?") (lit "s"))))
      = [EStep 1; EPost [Msg r_system (lit "s"); Msg r_user (lit "2 * 3?")]]
          ++ EStep 2
          :: EPost [Msg r_system (lit "s"); Msg r_user (lit "2 * 3?");
                    Msg r_assistant UNKNOWN_TOOL_REPLY;
                    Msg r_user
                      (lit "Observation: Tool Execution Error: Tool multiply not registered.")]
          :: more.
Proof.
  destruct (@C7_unregistered_tool plain_runtime (constant_model UNKNOWN_TOOL_REPLY)
              UNKNOWN_TOOL_REPLY
              (litq "{'tool': 'multiply', 'args': {}}")
              [(lit "tool", VStr (lit "multiply")); (lit "args", VDict [])]
              (lit "multiply") (VDict []))
    as (Hbody & _ & Hnext); try (vm_compute; reflexivity).
  split.
  - exact (Hbody [Msg r_system (lit "s"); Msg r_user (lit "2 * 3?")]).
  - apply (Hnext (lit "s") 0%Z 1%Z [] (initial_state (lit "2 * 3?") (lit "s"))
             {| hist := [Msg r_system (lit "s"); Msg r_user (lit "2 * 3?")];
                events := [EStep 1;
                           EPost [Msg r_system (lit "s"); Msg r_user (lit "2 * 3?")]] |}).
    + discriminate.
    + vm_compute. reflexivity.
Defined.

Lemma C8_ambiguous_reply_witness :
  @step_body plain_runtime [Msg r_system (lit "s"); Msg r_user (lit "123 + 456?")]
    (lit "The sum of 123 and 456 is 579.")
  = Return FAILED_MESSAGE.
Proof.
  refine ((fun H => proj1 H [Msg r_system (lit "s"); Msg r_user (lit "123 + 456?")])
            (@C8_ambiguous_reply plain_runtime dead_endpoint
               (lit "The sum of 123 and 456 is 579.") _ _)).
  - vm_compute. reflexivity.
  - apply action_match_none. vm_compute. reflexivity.
Defined.

(** At the default budget, a model that keeps asking for the example
    action uses the five steps and five requests, and the run ends
    with the budget message. *)
Example default_budget_run :
  let r := @run_agent_loop plain_runtime (constant_model EXAMPLE_REPLY)
             (lit "123 + 456?") (lit "s") DEFAULT_MAX_STEPS in
  fst r = Ok BUDGET_MESSAGE
  /\ count_steps (events (snd r)) = 5%nat
  /\ count_posts (events (snd r)) = 5%nat.
Proof. vm_compute. repeat split. Qed.

(** When the endpoint is down, the error string of [call_llm] is read
    as a reply; it has no marker and no region, and the run fails
    after the three attempts of its first step. *)
Example dead_endpoint_run :
  let r := @run_agent_loop plain_runtime dead_endpoint
             (lit "123 + 456?") (lit "s") DEFAULT_MAX_STEPS in
  fst r = Ok FAILED_MESSAGE
  /\ count_steps (events (snd r)) = 1%nat
  /\ count_posts (events (snd r)) = 3%nat
  /\ sleeps (events (snd r)) = [1; 2]%Z.
Proof. vm_compute. repeat split. Qed.

(** A run goes on after an unregistered tool and after a payload that
    lacks the key [args]: the model sees both observations and then
    answers. *)
Example recovers_after_dispatch_errors :
  let r := @run_agent_loop plain_runtime
             (scripted_model
                (ACTION_START ++ litq "{'tool': 'multiply', 'args': {}}" ++ ACTION_END)
                [ACTION_START ++ litq "{'tool': 'add_numbers'}" ++ ACTION_END;
                 lit "Final Answer: 579"])
             (lit "123 + 456?") (lit "s") DEFAULT_MAX_STEPS in
  fst r = Ok (DONE_PREFIX ++ lit "579")
  /\ map content (skipn 2 (hist (snd r)))
     = [ACTION_START ++ litq "{'tool': 'multiply', 'args': {}}" ++ ACTION_END;
        lit "Observation: Tool Execution Error: Tool multiply not registered.";
        ACTION_START ++ litq "{'tool': 'add_numbers'}" ++ ACTION_END;
        lit "Observation: Tool Execution Error: 'args'"]
  /\ count_steps (events (snd r)) = 3%nat.
Proof. vm_compute. repeat split. Qed.

(** * Further properties of the code *)

(** ** The outbound message list, for any history *)

Lemma translate_app l1 l2 : translate (l1 ++ l2) = translate l1 ++ translate l2.
Proof. unfold translate. apply flat_map_app. Qed.

Lemma translate_one_outbound m : forallb outbound_role (translate_one m) = true.
Proof.
  rewrite translate_one_cases.
  destruct (has_role r_user m) eqn:Hu, (has_role r_assistant m) eqn:Ha,
    (has_role r_system m) eqn:Hs, (has_role r_tool m) eqn:Ht;
    cbn [orb forallb andb]; unfold outbound_role; rewrite ?Hu, ?Ha, ?Hs;
    reflexivity.
Qed.

(** Whatever the history holds, every message [call_llm] sends has the
    role system, user or assistant: a tool-role message never reaches
    the endpoint, and neither does a role the code does not know. *)
Theorem outbound_roles_only history system_prompt :
  forallb outbound_role (build_messages history system_prompt) = true.
Proof.
  rewrite build_messages_eq, forallb_app. apply andb_true_iff. split.
  - now destruct system_prompt.
  - induction (py_tail history) as [|m l IH]; [reflexivity|].
    unfold translate in *. cbn [flat_map]. rewrite forallb_app, IH.
    now rewrite translate_one_outbound.
Qed.

(** A history that grows at its end makes the message list grow at its
    end: what was sent before is sent again unchanged, and a step's
    reply and observation follow it as an assistant message and a user
    message. *)
Theorem build_messages_extends history more system_prompt reply observation :
  history <> [] ->
  build_messages (history ++ more) system_prompt
  = build_messages history system_prompt ++ translate more
  /\ build_messages (history ++ [Msg r_assistant reply; Msg r_tool observation])
       system_prompt
     = build_messages history system_prompt
         ++ [Msg r_assistant reply; Msg r_user observation].
Proof.
  intros Hne. destruct history as [|m0 rest]; [contradiction|].
  assert (E : forall l, build_messages ((m0 :: rest) ++ l) system_prompt
                        = build_messages (m0 :: rest) system_prompt ++ translate l).
  { intros l. rewrite !build_messages_eq. cbn [app py_tail tl].
    now rewrite translate_app, app_assoc. }
  split; [apply E|]. rewrite E. reflexivity.
Qed.

Lemma build_messages_extends_witness :
  build_messages ([Msg r_system (lit "s"); Msg r_user (lit "u")]
                    ++ [Msg r_assistant (lit "a"); Msg r_tool (lit "Observation: 3")])
    (lit "s")
  = build_messages [Msg r_system (lit "s"); Msg r_user (lit "u")] (lit "s")
      ++ [Msg r_assistant (lit "a"); Msg r_user (lit "Observation: 3")].
Proof.
  refine (proj2 (@build_messages_extends
                   [Msg r_system (lit "s"); Msg r_user (lit "u")] []
                   (lit "s") (lit "a") (lit "Observation: 3") _)).
  discriminate.
Defined.

Lemma translate_one_known m :
  map content (translate_one m) = if known_role m then [content m] else [].
Proof.
  rewrite translate_one_cases. unfold known_role.
  destruct (has_role r_user m || has_role r_assistant m || has_role r_system m);
    [reflexivity|].
  now destruct (has_role r_tool m).
Qed.

(** The contents [call_llm] sends are the system prompt, when it is
    not empty, and then the contents of the history after its first
    entry, in order and verbatim, except that a message whose role is
    none of system, user, assistant and tool is left out without any
    error. *)
Theorem outbound_contents history system_prompt :
  map content (build_messages history system_prompt)
  = (if pystr_eqb system_prompt [] then [] else [system_prompt])
      ++ map content (filter known_role (py_tail history)).
Proof.
  rewrite build_messages_eq, map_app. f_equal.
  - now destruct system_prompt.
  - induction (py_tail history) as [|m l IH]; [reflexivity|].
    unfold translate in *. cbn [flat_map filter].
    rewrite map_app, IH, translate_one_known.
    now destruct (known_role m).
Qed.

(** ** The guard of line 126 and the split of line 127 *)

(** [split(sep, 1)] gives one part, the text itself, exactly when the
    text does not contain the separator, and otherwise two parts that
    give the text back when joined by the separator; so the index [1]
    of line 127, taken under the test of line 126, is always there. *)
Theorem split_under_guard sep s :
  match py_split1 sep s with
  | [part] => py_in sep s = false /\ part = s
  | [a; b] => py_in sep s = true /\ s = a ++ sep ++ b
  | _ => False
  end.
Proof.
  unfold py_split1. destruct (partition sep s) as [[a b]|] eqn:P.
  - destruct (partition_spec _ _ P) as [E _]. split; [|exact E].
    apply py_in_spec. now exists a, b.
  - split; [|reflexivity].
    destruct (py_in sep s) eqn:Hin; [|reflexivity].
    destruct (partition_in _ _ Hin) as (a & b & E). congruence.
Qed.

(** ** Which region the pattern of line 132 picks *)

Lemma spaces_prefix_unique ws : forall ws' c c' r r',
  forallb isspace ws = true -> forallb isspace ws' = true ->
  isspace c = false -> isspace c' = false ->
  ws ++ c :: r = ws' ++ c' :: r' ->
  ws = ws' /\ r = r'.
Proof.
  induction ws as [|w ws IH]; intros ws' c c' r r' H1 H2 Hc Hc' E.
  - destruct ws' as [|w' ws']; cbn in *.
    + injection E as _ ->. now split.
    + injection E as -> _. apply andb_true_iff in H2. destruct H2 as [H2 _]. congruence.
  - cbn in H1. apply andb_true_iff in H1. destruct H1 as [Hw H1].
    destruct ws' as [|w' ws']; cbn in *.
    + injection E as -> _. congruence.
    + injection E as -> E. apply andb_true_iff in H2. destruct H2 as [_ H2].
      destruct (IH _ _ _ _ _ H1 H2 Hc Hc' E) as [-> ->]. now split.
Qed.

(** The lazy group stops at the first place where the rest of the
    pattern matches. *)
Lemma re_lazy_any_minimal {A} (k : pystr -> pystr -> option A) s : forall taken r,
  re_lazy_any k taken s = Some r ->
  exists mid rest,
    s = mid ++ rest /\ k (taken ++ mid) rest = Some r
    /\ forall mid' rest', s = mid' ++ rest' -> k (taken ++ mid') rest' <> None ->
                          (List.length mid <= List.length mid')%nat.
Proof.
  induction s as [|c s IH]; intros taken r; cbn [re_lazy_any].
  - destruct (k taken []) eqn:E; [|discriminate]. intros [= ->].
    exists [], []. split; [reflexivity|]. split; [now rewrite app_nil_r|].
    intros; cbn; lia.
  - destruct (k taken (c :: s)) eqn:E.
    + intros [= ->]. exists [], (c :: s).
      split; [reflexivity|]. split; [now rewrite app_nil_r|]. intros; cbn; lia.
    + intros H. destruct (IH _ _ H) as (mid & rest & -> & Hk & Hmin).
      exists (c :: mid), rest. rewrite <- app_assoc in Hk.
      split; [reflexivity|]. split; [exact Hk|].
      intros mid' rest' E' Hk'. destruct mid' as [|c' mid'].
      * cbn in E'. subst rest'. rewrite app_nil_r in Hk'. congruence.
      * cbn in E'. injection E' as -> E'. cbn [List.length].
        apply le_n_S. apply (Hmin mid' rest' E').
        now rewrite <- app_assoc.
Qed.

(** At a given [[ACTION_START]], the group is the shortest payload in
    braces that white space and [[ACTION_END]] follow. *)
Lemma action_re_at_shortest s g :
  action_re_at s = Some g ->
  forall ws1' body' ws2' post',
    s = ACTION_START ++ ws1' ++ (LBRACE :: body' ++ [RBRACE])
          ++ ws2' ++ ACTION_END ++ post' ->
    forallb isspace ws1' = true -> forallb isspace ws2' = true ->
    (List.length g <= List.length (LBRACE :: body' ++ [RBRACE]))%nat.
Proof.
  unfold action_re_at, re_literal. intros H ws1' body' ws2' post' E H1' H2'.
  subst s. rewrite strip_prefix_self in H.
  apply re_spaces_sound in H. destruct H as (ws1 & r1 & E1 & Hws1 & H).
  unfold re_char in H. destruct r1 as [|x r2]; [discriminate|].
  destruct (N.eqb_spec x LBRACE) as [->|]; [|discriminate].
  cbn [app] in E1. symmetry in E1.
  destruct (spaces_prefix_unique ws1 ws1' LBRACE LBRACE _ _ Hws1 H1'
              eq_refl eq_refl E1) as [-> ->].
  apply re_lazy_any_minimal in H. destruct H as (mid & rest & E2 & Hk & Hmin).
  cbn [app] in Hk.
  assert (Hg : g = LBRACE :: mid ++ [RBRACE]).
  { unfold action_re_close, re_char in Hk. destruct rest as [|y r4]; [discriminate|].
    destruct (N.eqb y RBRACE); [|discriminate].
    apply re_spaces_sound in Hk. destruct Hk as (ws2 & r5 & _ & _ & Hk).
    unfold re_literal in Hk. destruct (strip_prefix ACTION_END r5); [|discriminate].
    now injection Hk as <-. }
  subst g. cbn [List.length]. rewrite !length_app. cbn [List.length].
  apply le_n_S. apply Nat.add_le_mono_r.
  apply (Hmin body' (RBRACE :: ws2' ++ ACTION_END ++ post')).
  - now rewrite <- app_assoc.
  - cbn [app]. unfold action_re_close. cbn [re_char]. rewrite N.eqb_refl.
    apply re_spaces_complete; [exact H2'|].
    unfold re_literal. rewrite strip_prefix_self. discriminate.
Qed.

(** Of all the action regions a reply holds, the loop dispatches the
    one that starts first, and of those that start there the shortest:
    the payload ends at the first closing brace that [[ACTION_END]]
    follows.  A second action in the same reply is never executed. *)
Theorem first_action_only text g :
  action_match text = Some g ->
  exists pre ws1 ws2 post,
    text = pre ++ ACTION_START ++ ws1 ++ g ++ ws2 ++ ACTION_END ++ post
    /\ forallb isspace ws1 = true /\ forallb isspace ws2 = true
    /\ forall pre' ws1' body' ws2' post',
        text = pre' ++ ACTION_START ++ ws1' ++ (LBRACE :: body' ++ [RBRACE])
                 ++ ws2' ++ ACTION_END ++ post' ->
        forallb isspace ws1' = true -> forallb isspace ws2' = true ->
        (List.length pre <= List.length pre')%nat
        /\ (List.length pre = List.length pre' ->
            (List.length g <= List.length (LBRACE :: body' ++ [RBRACE]))%nat).
Proof.
  assert (Hat : forall s, action_re_at s = Some g ->
                exists pre ws1 ws2 post,
                  s = pre ++ ACTION_START ++ ws1 ++ g ++ ws2 ++ ACTION_END ++ post
                  /\ forallb isspace ws1 = true /\ forallb isspace ws2 = true
                  /\ forall pre' ws1' body' ws2' post',
                      s = pre' ++ ACTION_START ++ ws1' ++ (LBRACE :: body' ++ [RBRACE])
                            ++ ws2' ++ ACTION_END ++ post' ->
                      forallb isspace ws1' = true -> forallb isspace ws2' = true ->
                      (List.length pre <= List.length pre')%nat
                      /\ (List.length pre = List.length pre' ->
                          (List.length g <= List.length (LBRACE :: body' ++ [RBRACE]))%nat)).
  { intros s E. pose proof (@action_re_at_shortest s g E) as Hshort.
    destruct (action_re_at_sound _ E) as (ws1 & body & ws2 & post & Es & _ & H1 & H2).
    exists [], ws1, ws2, post. repeat split; try assumption.
    - cbn; lia.
    - intros Hlen. destruct pre'; [|discriminate]. eapply Hshort; eauto. }
  induction text as [|c text IH]; cbn [action_match].
  - destruct (action_re_at []) eqn:E; [|discriminate]. intros [= ->]. now apply Hat.
  - destruct (action_re_at (c :: text)) eqn:E.
    + intros [= ->]. now apply Hat.
    + intros H. destruct (IH H) as (pre & ws1 & ws2 & post & -> & H1 & H2 & Hmin).
      exists (c :: pre), ws1, ws2, post. repeat split; try assumption.
      * destruct pre' as [|c' pre'].
        -- exfalso. cbn [app] in H0. rewrite H0 in E.
           now apply (action_re_at_complete ws1' body' ws2' post') in E.
        -- cbn [app] in H0. injection H0 as _ H0. cbn [List.length].
           apply le_n_S. now apply (Hmin pre' ws1' body' ws2' post').
      * destruct pre' as [|c' pre']; [discriminate|].
        cbn [app] in H0. injection H0 as _ H0. cbn [List.length]. intros [= Hlen].
        now apply (Hmin pre' ws1' body' ws2' post').
Qed.

Lemma first_action_only_witness :
  exists pre ws1 ws2 post,
    ACTION_START ++ lit "{1}" ++ ACTION_END ++ ACTION_START ++ lit "{2}" ++ ACTION_END
    = pre ++ ACTION_START ++ ws1 ++ lit "{1}" ++ ws2 ++ ACTION_END ++ post
    /\ forallb isspace ws1 = true /\ forallb isspace ws2 = true.
Proof.
  destruct (@first_action_only
              (ACTION_START ++ lit "{1}" ++ ACTION_END
                 ++ ACTION_START ++ lit "{2}" ++ ACTION_END)
              (lit "{1}") eq_refl)
    as (pre & ws1 & ws2 & post & E & H1 & H2 & _).
  exists pre, ws1, ws2, post. repeat split; assumption.
Defined.

(** ** Edges of [call_llm] and of the step loop *)

Lemma py_range_nonpositive n : (n <= 0)%Z -> py_range n = [].
Proof. intros H. unfold py_range. now replace (Z.to_nat n) with 0%nat by lia. Qed.

Lemma response_content_stripped body text :
  response_content body = Ok text -> exists c, text = py_strip c.
Proof.
  unfold response_content.
  destruct (getitem_key body (lit "choices")) as [choices|]; [|discriminate].
  cbn [bind_result]. destruct (getitem_0 choices) as [first|]; [|discriminate].
  cbn [bind_result]. destruct (getitem_key first (lit "message")) as [msg|]; [|discriminate].
  cbn [bind_result]. destruct (getitem_key msg (lit "content")) as [v|]; [|discriminate].
  cbn [bind_result]. destruct v; try discriminate. intros [= <-]. eauto.
Qed.

Lemma spec_retry_then_answer_posts messages k : forall i,
  count_posts (spec_retry_then_answer messages k i) = S k.
Proof.
  induction k as [|k IH]; intros i; [reflexivity|].
  cbn [spec_retry_then_answer].
  change (count_posts (EPost messages :: ESleep (2 ^ i)
                         :: spec_retry_then_answer messages k (i + 1)))
    with (S (count_posts (spec_retry_then_answer messages k (i + 1)))).
  now rewrite IH.
Qed.

Section Edges.
Context {RT : Runtime} {DP : Deployment}.

(** With [max_retries] zero or negative, [call_llm] sends no request
    at all and returns the string of line 106. *)
Theorem no_attempt_without_retries history system_prompt max_retries st :
  key_configured = true ->
  (max_retries <= 0)%Z ->
  call_llm history system_prompt max_retries st
  = (Ok (lit "Error: Maximum retry attempts exceeded."), st).
Proof.
  intros Hk Hn. unfold call_llm. rewrite Hk, py_range_nonpositive by exact Hn.
  reflexivity.
Qed.

(** With [max_steps] zero or negative the loop body never runs: the
    run returns the budget message, sends nothing, and does not even
    look at the API key. *)
Theorem no_step_without_budget initial_user_prompt system_prompt max_steps :
  (max_steps <= 0)%Z ->
  run_agent_loop initial_user_prompt system_prompt max_steps
  = (Ok BUDGET_MESSAGE, initial_state initial_user_prompt system_prompt).
Proof.
  intros Hn. unfold run_agent_loop. now rewrite py_range_nonpositive by exact Hn.
Qed.

(** Without an API key, or with an empty one, a run with a positive
    budget ends in its first step with the [ValueError] of line 37,
    before any request; the history holds the two seed messages. *)
Theorem missing_key_stops_first_step initial_user_prompt system_prompt max_steps :
  key_configured = false ->
  (0 < max_steps)%Z ->
  run_agent_loop initial_user_prompt system_prompt max_steps
  = (Raise (ValueError KEY_MISSING_MESSAGE),
     {| hist := [Msg r_system system_prompt; Msg r_user initial_user_prompt];
        events := [EStep 1] |}).
Proof.
  intros Hk Hpos. unfold run_agent_loop, py_range.
  destruct (Z.to_nat max_steps) as [|k] eqn:E; [lia|].
  cbn [seq map]. rewrite agent_steps_cons.
  unfold think, bind, emit, get_history, call_llm. rewrite Hk. reflexivity.
Qed.

(** The retry loop when the first [k] attempts from attempt [i] on
    fail and the next one is answered. *)
Lemma retry_loop_then_answer messages body text more k : forall i st,
  (forall tr msgs, (count_posts tr < count_posts (events st) + k)%nat ->
                   exists e, endpoint tr msgs = RequestException e) ->
  (forall tr msgs, count_posts tr = (count_posts (events st) + k)%nat ->
                   endpoint tr msgs = Response body) ->
  response_content body = Ok text ->
  retry_loop messages (Z.of_nat (i + S (k + more)))
    (map Z.of_nat (seq i (S (k + more)))) st
  = (Ok text, {| hist := hist st;
                 events := events st ++ spec_retry_then_answer messages k (Z.of_nat i) |}).
Proof.
  induction k as [|k IH]; intros i st Hfail Hok Hbody.
  - cbn [seq map retry_loop]. unfold bind, post.
    rewrite (Hok (events st) messages) by lia. now rewrite Hbody.
  - change (S k + more)%nat with (S (k + more)). set (len := S (k + more)).
    cbn [seq map retry_loop]. unfold bind at 1, post at 1.
    destruct (Hfail (events st) messages ltac:(lia)) as (e & ->).
    assert ((Z.of_nat i =? Z.of_nat (i + S len) - 1)%Z = false) as ->
        by (apply Z.eqb_neq; lia).
    unfold bind at 1, emit at 1. cbn [hist events].
    replace (i + S len)%nat with (S i + len)%nat by lia. subst len.
    assert (Hc : count_posts ((events st ++ [EPost messages]) ++ [ESleep (2 ^ Z.of_nat i)])
                 = S (count_posts (events st))).
    { rewrite !count_posts_app. cbn. lia. }
    rewrite (IH (S i) {| hist := hist st;
                         events := (events st ++ [EPost messages])
                                     ++ [ESleep (2 ^ Z.of_nat i)] |}).
    + cbn [hist events spec_retry_then_answer]. rewrite <- !app_assoc. cbn [app].
      now rewrite Nat2Z.inj_succ, Z.add_1_r.
    + cbn [events]. rewrite Hc. intros tr msgs Hlt. apply Hfail. lia.
    + cbn [events]. rewrite Hc. intros tr msgs Heq. apply Hok. lia.
    + exact Hbody.
Qed.

(** When the first [k] attempts fail and the next one is answered,
    [k] being less than [max_retries], [call_llm] sends [k + 1]
    requests with a delay of [2 ^ i] after failed attempt [i], makes no
    further attempt, and returns the content of the answer without the
    white space at its ends. *)
Theorem answered_after_failures history system_prompt max_retries st k body text :
  key_configured = true ->
  (Z.of_nat k < max_retries)%Z ->
  (forall tr msgs, (count_posts tr < count_posts (events st) + k)%nat ->
                   exists e, endpoint tr msgs = RequestException e) ->
  (forall tr msgs, count_posts tr = (count_posts (events st) + k)%nat ->
                   endpoint tr msgs = Response body) ->
  response_content body = Ok text ->
  call_llm history system_prompt max_retries st
  = (Ok text,
     {| hist := hist st;
        events := events st
                    ++ spec_retry_then_answer (build_messages history system_prompt) k 0 |})
  /\ count_posts (spec_retry_then_answer (build_messages history system_prompt) k 0)
     = S k
  /\ exists c, spec_trimmed c text.
Proof.
  intros Hkey Hlt Hfail Hok Hbody. split; [|split].
  - unfold call_llm, py_range. rewrite Hkey. cbn [negb].
    pose proof (retry_loop_then_answer (build_messages history system_prompt)
                  (Z.to_nat max_retries - S k) k 0 st Hfail Hok Hbody) as E.
    replace (0 + S (k + (Z.to_nat max_retries - S k)))%nat
      with (Z.to_nat max_retries) in E by lia.
    replace (S (k + (Z.to_nat max_retries - S k)))%nat
      with (Z.to_nat max_retries) in E by lia.
    rewrite Z2Nat.id in E by lia. exact E.
  - apply spec_retry_then_answer_posts.
  - destruct (response_content_stripped _ Hbody) as (c & ->).
    exists c. apply py_strip_spec.
Qed.
End Edges.

(** ** What a model call can cost and what can leave it *)

Lemma sleeps_app a b : sleeps (a ++ b) = sleeps a ++ sleeps b.
Proof. unfold sleeps. apply flat_map_app. Qed.

Lemma total_sleep_app a b : total_sleep (a ++ b) = (total_sleep a + total_sleep b)%Z.
Proof.
  unfold total_sleep. rewrite sleeps_app.
  induction (sleeps a) as [|x l IH]; cbn; [reflexivity|]. rewrite IH. lia.
Qed.

Lemma posts_app a b : posts (a ++ b) = posts a ++ posts b.
Proof. unfold posts. apply flat_map_app. Qed.

Lemma getitem_key_raises v k e :
  getitem_key v k = Raise e ->
  match e with KeyError _ | TypeError _ => True | _ => False end.
Proof.
  destruct v; cbn; try (intros [= <-]; exact I).
  destruct (dict_get d k); [discriminate|]. intros [= <-]. exact I.
Qed.

Lemma getitem_0_raises v e :
  getitem_0 v = Raise e ->
  match e with KeyError _ | IndexError _ | TypeError _ => True | _ => False end.
Proof.
  destruct v as [| | | |s|l|d]; cbn; try (intros [= <-]; exact I).
  - destruct s; [|discriminate]. intros [= <-]. exact I.
  - destruct l; [|discriminate]. intros [= <-]. exact I.
Qed.

(** Indexing the response raises nothing but [KeyError], [IndexError],
    [TypeError] and [AttributeError]. *)
Lemma response_content_raises body e :
  response_content body = Raise e ->
  match e with
  | KeyError _ | IndexError _ | TypeError _ | AttributeError _ => True
  | _ => False
  end.
Proof.
  unfold response_content.
  destruct (getitem_key body (lit "choices")) as [choices|e1] eqn:E1; cbn [bind_result].
  2:{ intros [= <-]. apply getitem_key_raises in E1. now destruct e1. }
  destruct (getitem_0 choices) as [first|e2] eqn:E2; cbn [bind_result].
  2:{ intros [= <-]. apply getitem_0_raises in E2. now destruct e2. }
  destruct (getitem_key first (lit "message")) as [msg|e3] eqn:E3; cbn [bind_result].
  2:{ intros [= <-]. apply getitem_key_raises in E3. now destruct e3. }
  destruct (getitem_key msg (lit "content")) as [v|e4] eqn:E4; cbn [bind_result].
  2:{ intros [= <-]. apply getitem_key_raises in E4. now destruct e4. }
  destruct v; cbn; intros [= <-]; exact I.
Qed.

Section Cost.
Context {RT : Runtime} {DP : Deployment}.

(** The retry loop over the attempts [i .. i + k]: what it adds to the
    trace whatever the endpoint does. *)
Lemma retry_loop_cost messages k : forall i st,
  exists new,
    snd (retry_loop messages (Z.of_nat (i + S k)) (map Z.of_nat (seq i (S k))) st)
    = {| hist := hist st; events := events st ++ new |}
    /\ (0 <= total_sleep new)%Z
    /\ (total_sleep new <= 2 ^ (Z.of_nat (i + S k) - 1) - 2 ^ Z.of_nat i)%Z
    /\ (List.length (sleeps new) < count_posts new)%nat
    /\ Forall (fun m => m = messages) (posts new).
Proof.
  induction k as [|k IH]; intros i st.
  - cbn [seq map retry_loop]. unfold bind, post, ret, raise.
    replace (Z.of_nat (i + 1) - 1)%Z with (Z.of_nat i) by lia. rewrite Z.eqb_refl.
    exists [EPost messages].
    destruct (endpoint (events st) messages) as [e|body|x];
      [|destruct (response_content body) as [s|[]]|destruct x];
      cbn; repeat split; try lia; repeat constructor.
  - set (len := S k). cbn [seq map retry_loop]. unfold bind at 1, post at 1.
    assert (Hpow : (2 ^ Z.of_nat i <= 2 ^ (Z.of_nat (i + S len) - 1))%Z)
      by (apply Z.pow_le_mono_r; lia).
    destruct (endpoint (events st) messages) as [e|body|x];
      [| |exists [EPost messages]; destruct x;
          cbn; repeat split; try lia; repeat constructor].
    + assert ((Z.of_nat i =? Z.of_nat (i + S len) - 1)%Z = false) as ->
          by (apply Z.eqb_neq; lia).
      unfold bind at 1, emit at 1. cbn [hist events].
      replace (i + S len)%nat with (S i + len)%nat by lia. subst len.
      destruct (IH (S i) {| hist := hist st;
                            events := (events st ++ [EPost messages])
                                        ++ [ESleep (2 ^ Z.of_nat i)] |})
        as (new & E & H0 & Hle & Hlen & Hposts).
      exists (EPost messages :: ESleep (2 ^ Z.of_nat i) :: new).
      rewrite E. cbn [hist events]. rewrite <- !app_assoc. cbn [app].
      change (total_sleep (EPost messages :: ESleep (2 ^ Z.of_nat i) :: new))
        with (2 ^ Z.of_nat i + total_sleep new)%Z.
      change (sleeps (EPost messages :: ESleep (2 ^ Z.of_nat i) :: new))
        with ((2 ^ Z.of_nat i)%Z :: sleeps new).
      change (count_posts (EPost messages :: ESleep (2 ^ Z.of_nat i) :: new))
        with (S (count_posts new)).
      change (posts (EPost messages :: ESleep (2 ^ Z.of_nat i) :: new))
        with (messages :: posts new).
      assert (Hdouble : (2 ^ Z.of_nat (S i) = 2 * 2 ^ Z.of_nat i)%Z)
        by (rewrite Nat2Z.inj_succ; apply Z.pow_succ_r; lia).
      assert (Hi : (0 < 2 ^ Z.of_nat i)%Z) by (apply Z.pow_pos_nonneg; lia).
      cbn [List.length]. repeat split; try lia. now constructor.
    + exists [EPost messages].
      destruct (response_content body) as [s|[]];
        cbn; repeat split; try lia; repeat constructor.
Qed.

Lemma call_llm_cost history system_prompt max_retries st :
  exists new,
    snd (call_llm history system_prompt max_retries st)
    = {| hist := hist st; events := events st ++ new |}
    /\ (0 <= total_sleep new <= Z.max 0 (2 ^ (max_retries - 1) - 1))%Z
    /\ (List.length (sleeps new) <= Nat.pred (count_posts new))%nat
    /\ Forall (fun m => m = build_messages history system_prompt) (posts new).
Proof.
  unfold call_llm. destruct (negb key_configured).
  - exists []. cbn. rewrite app_nil_r, run_state_eta. repeat split; try lia. constructor.
  - unfold py_range. destruct (Z.to_nat max_retries) as [|k] eqn:Ek.
    + exists []. cbn. rewrite app_nil_r, run_state_eta. repeat split; try lia. constructor.
    + destruct (retry_loop_cost (build_messages history system_prompt) k 0 st)
        as (new & E & H0 & Hle & Hlen & Hposts).
      cbn [Nat.add] in *. rewrite <- Ek in E, Hle. rewrite Z2Nat.id in E, Hle by lia.
      rewrite Ek in E. exists new. rewrite E. cbn [Z.of_nat Z.pow] in Hle.
      repeat split; try lia. exact Hposts.
Qed.

(** Whatever the endpoint does, one call of [call_llm] sleeps for at
    most [2 ^ (max_retries - 1) - 1] time units in all, never ends on a
    delay, and sends the same message list at every attempt. *)
Theorem backoff_bounded history system_prompt max_retries st :
  exists new,
    snd (call_llm history system_prompt max_retries st)
    = {| hist := hist st; events := events st ++ new |}
    /\ (0 <= total_sleep new <= Z.max 0 (2 ^ (max_retries - 1) - 1))%Z
    /\ (List.length (sleeps new) <= Nat.pred (count_posts new))%nat
    /\ Forall (fun m => m = build_messages history system_prompt) (posts new).
Proof. apply call_llm_cost. Qed.

(** A call raises only without a key, when indexing the response
    fails with a [TypeError] or an [AttributeError], or when an attempt
    raises an exception that neither [except] clause takes. *)
Lemma retry_loop_raises messages n attempts : forall st e,
  fst (retry_loop messages n attempts st) = Raise e ->
  match e with TypeError _ | AttributeError _ => True | _ => False end
  \/ (exists tr, endpoint tr messages = Raised e /\ parse_failure e = false).
Proof.
  induction attempts as [|a attempts IH]; intros st e; [discriminate|].
  cbn [retry_loop]. unfold bind at 1, post at 1.
  destruct (endpoint (events st) messages) as [msg|body|x] eqn:Hx.
  - destruct (a =? n - 1)%Z; [discriminate|]. unfold bind at 1, emit at 1. apply IH.
  - destruct (response_content body) as [s|e0] eqn:E; [discriminate|].
    apply response_content_raises in E. destruct e0; try contradiction;
      cbn; intros [= <-]; left; exact I.
  - destruct x; cbn; try discriminate; intros [= <-]; right;
      exists (events st); now split.
Qed.

Lemma call_llm_raises history system_prompt n st e :
  fst (call_llm history system_prompt n st) = Raise e ->
  (key_configured = false /\ e = ValueError KEY_MISSING_MESSAGE)
  \/ match e with TypeError _ | AttributeError _ => True | _ => False end
  \/ (exists tr msgs, endpoint tr msgs = Raised e /\ parse_failure e = false).
Proof.
  unfold call_llm. destruct key_configured; cbn [negb].
  - intros H. right. apply retry_loop_raises in H.
    destruct H as [H|(tr & H)]; [now left | right; eauto].
  - intros [= <-]. now left.
Qed.

Lemma think_cost system_prompt step st :
  exists new,
    snd (think system_prompt step st)
    = {| hist := hist st; events := events st ++ EStep (step + 1) :: new |}
    /\ count_steps new = 0%nat
    /\ (0 <= total_sleep new <= 3)%Z
    /\ Forall (fun m => m = build_messages (hist st) system_prompt) (posts new).
Proof.
  destruct (think_frame system_prompt step st) as (new & E & _ & Hs).
  exists new. split; [exact E|]. split; [exact Hs|].
  unfold think, bind, emit, get_history in E. cbn [hist events] in E.
  destruct (call_llm_cost (hist st) system_prompt DEFAULT_MAX_RETRIES
              {| hist := hist st; events := events st ++ [EStep (step + 1)] |})
    as (new' & E' & Hsleep & _ & Hposts).
  assert (Hsame : snd (call_llm (hist st) system_prompt DEFAULT_MAX_RETRIES
                         {| hist := hist st; events := events st ++ [EStep (step + 1)] |})
                  = {| hist := hist st; events := events st ++ EStep (step + 1) :: new |}).
  { destruct (call_llm _ _ _ _) as [[t|e] st1]; exact E. }
  rewrite Hsame in E'. cbn [hist events] in E'. injection E' as E'.
  rewrite <- app_assoc in E'. apply app_inv_head in E'. injection E' as <-.
  split; [exact Hsleep | exact Hposts].
Qed.
End Cost.

(** ** What a whole run keeps *)

Section Run.
Context {RT : Runtime} {DP : Deployment}.

Lemma execute_action_ok payload message :
  execute_action payload = Ok message ->
  exists v, message = lit "Observation: " ++ py_str v.
Proof.
  unfold execute_action. destruct (json_loads payload) as [d|]; [|discriminate].
  destruct (getitem_key d (lit "tool")) as [name|]; cbn [bind_result]; [|discriminate].
  destruct (getitem_key d (lit "args")) as [args|]; cbn [bind_result]; [|discriminate].
  destruct (lookup_tool name) as [[f|]|]; cbn [bind_result]; try discriminate.
  destruct (call_kwargs f args) as [v|]; cbn [bind_result]; [|discriminate].
  assert (Hv : forall printed, format_field v = Ok printed -> printed = py_str v).
  { intros printed. unfold format_field. destruct v; try (now intros [= <-]).
    destruct (INT_MAX_STR_DIGITS <? int_digits z)%nat; [discriminate | now intros [= <-]]. }
  destruct (format_field v) as [printed|]; cbn [bind_result]; [|discriminate].
  intros [= <-]. exists v. now rewrite (Hv printed eq_refl).
Qed.

(** What one pass of the loop body can come to. *)
Lemma step_body_cases history text :
  match step_body history text with
  | Return value =>
      value = FAILED_MESSAGE \/ exists post, value = DONE_PREFIX ++ py_strip post
  | Continue history' =>
      exists observation,
        history' = history ++ [Msg r_assistant text;
                               Msg r_tool (lit "Observation: " ++ observation)]
  | Throw history' e =>
      history' = history ++ [Msg r_assistant text] /\ handled e = false
  end.
Proof.
  unfold step_body. destruct (py_in FINAL_MARKER text); [right; eauto|].
  destruct (action_match text) as [payload|]; [|now left].
  destruct (execute_action payload) as [message|e] eqn:E.
  - apply execute_action_ok in E. destruct E as (v & ->).
    exists (py_str v). now rewrite <- app_assoc.
  - destruct (handled e) eqn:Hh; [|now split].
    exists (lit "Tool Execution Error: " ++ str_of_exn e). now rewrite <- app_assoc.
Qed.

Lemma think_raises system_prompt step st e :
  fst (think system_prompt step st) = Raise e ->
  (key_configured = false /\ e = ValueError KEY_MISSING_MESSAGE)
  \/ handled e = false
  \/ (exists tr msgs, endpoint tr msgs = Raised e /\ parse_failure e = false).
Proof.
  unfold think, bind, emit, get_history. cbn [hist events].
  destruct (call_llm _ _ _ _) as [[t|e0] st1] eqn:E; [discriminate|].
  cbn [fst]. intros [= <-].
  assert (H : fst (call_llm (hist st) system_prompt DEFAULT_MAX_RETRIES
                     {| hist := hist st; events := events st ++ [EStep (step + 1)] |})
              = Raise e0) by now rewrite E.
  apply call_llm_raises in H. destruct H as [H|[H|H]]; [now left| |now right; right].
  right. left. now destruct e0.
Qed.

Lemma agent_steps_outcome system_prompt steps : forall st,
  match fst (agent_steps system_prompt steps st) with
  | Ok value =>
      value = BUDGET_MESSAGE \/ value = FAILED_MESSAGE
      \/ exists post, value = DONE_PREFIX ++ py_strip post
  | Raise e =>
      (key_configured = false /\ e = ValueError KEY_MISSING_MESSAGE)
      \/ handled e = false
      \/ (exists tr msgs, endpoint tr msgs = Raised e /\ parse_failure e = false)
  end.
Proof.
  induction steps as [|step steps IH]; intros st; [now left|].
  rewrite agent_steps_cons.
  destruct (think system_prompt step st) as [[text|e] st1] eqn:Ht.
  - pose proof (step_body_cases (hist st) text) as Hc.
    destruct (step_body (hist st) text) as [value|history'|history' e].
    + cbn [fst]. destruct Hc as [->|Hc]; auto.
    + apply IH.
    + cbn [fst]. right. left. apply Hc.
  - cbn [fst]. apply (think_raises system_prompt step st). now rewrite Ht.
Qed.

(** However a run ends, it ends in one of six ways: with the budget
    message, the failure message, or the final answer stripped and
    prefixed; with the [ValueError] of a missing API key; with an
    exception of a class the handler of line 164 does not list, raised
    by the dispatch or by the indexing of a response; or with an
    exception that an attempt of [call_llm] raised and that is neither
    a [RequestException] nor a [KeyError] or [IndexError], whatever its
    class (a [ValueError] included). *)
Theorem run_outcomes initial_user_prompt system_prompt max_steps :
  match fst (run_agent_loop initial_user_prompt system_prompt max_steps) with
  | Ok value =>
      value = BUDGET_MESSAGE \/ value = FAILED_MESSAGE
      \/ exists post, value = DONE_PREFIX ++ py_strip post
  | Raise e =>
      (key_configured = false /\ e = ValueError KEY_MISSING_MESSAGE)
      \/ handled e = false
      \/ (exists tr msgs, endpoint tr msgs = Raised e /\ parse_failure e = false)
  end.
Proof. apply agent_steps_outcome. Qed.

Lemma agent_steps_sound system_prompt initial_user_prompt steps : forall st,
  conversation system_prompt initial_user_prompt (hist st) ->
  Forall (from_conversation system_prompt initial_user_prompt) (posts (events st)) ->
  Forall (from_conversation system_prompt initial_user_prompt)
    (posts (events (snd (agent_steps system_prompt steps st))))
  /\ match fst (agent_steps system_prompt steps st) with
     | Ok _ => conversation system_prompt initial_user_prompt
                 (hist (snd (agent_steps system_prompt steps st)))
     | Raise _ => True
     end.
Proof.
  induction steps as [|step steps IH]; intros st Hconv Hposts; [now split|].
  rewrite agent_steps_cons.
  destruct (think_cost system_prompt step st) as (new & E & _ & _ & Hnew).
  assert (Hall : Forall (from_conversation system_prompt initial_user_prompt)
                   (posts (events st ++ EStep (step + 1) :: new))).
  { rewrite posts_app. apply Forall_app. split; [exact Hposts|].
    change (posts (EStep (step + 1) :: new)) with (posts new).
    eapply Forall_impl; [|exact Hnew]. intros m ->. now exists (hist st). }
  destruct (think system_prompt step st) as [[text|e] st1]; cbn [snd] in E; subst st1;
    [|now split].
  pose proof (step_body_cases (hist st) text) as Hc.
  destruct (step_body (hist st) text) as [value|history'|history' e0].
  - now split.
  - destruct Hc as (observation & ->). apply IH; [|exact Hall].
    now apply conversation_step.
  - now split.
Qed.

(** Every request of a run is made from a history the loop builds:
    the two seed messages and then an assistant message and an
    observation for each dispatched step; and when the run returns, the
    history it leaves is such a history too. *)
Theorem run_requests_sound initial_user_prompt system_prompt max_steps :
  Forall (from_conversation system_prompt initial_user_prompt)
    (posts (events (snd (run_agent_loop initial_user_prompt system_prompt max_steps))))
  /\ match fst (run_agent_loop initial_user_prompt system_prompt max_steps) with
     | Ok _ => conversation system_prompt initial_user_prompt
                 (hist (snd (run_agent_loop initial_user_prompt system_prompt max_steps)))
     | Raise _ => True
     end.
Proof.
  unfold run_agent_loop. apply agent_steps_sound; [constructor | constructor].
Qed.

Lemma agent_steps_budget system_prompt steps : forall st st',
  agent_steps system_prompt steps st = (Ok BUDGET_MESSAGE, st') ->
  count_steps (events st') = (count_steps (events st) + List.length steps)%nat
  /\ List.length (hist st') = (List.length (hist st) + 2 * List.length steps)%nat.
Proof.
  induction steps as [|step steps IH]; intros st st'.
  - intros [= <-]. cbn. lia.
  - rewrite agent_steps_cons.
    destruct (think_frame system_prompt step st) as (new & E & _ & Hs).
    destruct (think system_prompt step st) as [[text|e] st1]; cbn [snd] in E; subst st1;
      [|discriminate].
    pose proof (step_body_cases (hist st) text) as Hc.
    destruct (step_body (hist st) text) as [value|history'|history' e0];
      [|destruct Hc as (observation & ->)|discriminate].
    + intros [= -> _]. exfalso. destruct Hc as [Hc|(post & Hc)]; discriminate Hc.
    + intros H. apply IH in H. cbn [hist events] in H. destruct H as [H1 H2].
      rewrite H1, H2, count_steps_app, length_app.
      change (count_steps (EStep (step + 1) :: new)) with (S (count_steps new)).
      rewrite Hs. cbn [List.length]. lia.
Qed.

(** The budget message is returned only when every one of the
    [max_steps] steps ran and went through dispatch: the history then
    holds the two seed messages and two messages for each step. *)
Theorem budget_message_means_all_steps initial_user_prompt system_prompt max_steps :
  fst (run_agent_loop initial_user_prompt system_prompt max_steps) = Ok BUDGET_MESSAGE ->
  count_steps (events (snd (run_agent_loop initial_user_prompt system_prompt max_steps)))
  = Z.to_nat max_steps
  /\ List.length (hist (snd (run_agent_loop initial_user_prompt system_prompt max_steps)))
     = (2 + 2 * Z.to_nat max_steps)%nat.
Proof.
  unfold run_agent_loop. intros H.
  destruct (agent_steps system_prompt (py_range max_steps)
              (initial_state initial_user_prompt system_prompt)) as [r st'] eqn:E.
  cbn [fst snd] in *. subst r. apply agent_steps_budget in E.
  rewrite py_range_length in E. exact E.
Qed.

Lemma agent_steps_sleep system_prompt steps : forall st,
  (total_sleep (events st)
   <= total_sleep (events (snd (agent_steps system_prompt steps st)))
   <= total_sleep (events st) + 3 * Z.of_nat (List.length steps))%Z.
Proof.
  induction steps as [|step steps IH]; intros st; [cbn; lia|].
  rewrite agent_steps_cons.
  destruct (think_cost system_prompt step st) as (new & E & _ & Hsleep & _).
  assert (Ht : total_sleep (events st ++ EStep (step + 1) :: new)
               = (total_sleep (events st) + total_sleep new)%Z).
  { rewrite total_sleep_app. reflexivity. }
  destruct (think system_prompt step st) as [[text|e] st1]; cbn [snd] in E; subst st1.
  - destruct (step_body (hist st) text) as [value|history'|history' e0].
    + cbn [snd events]. rewrite Ht. cbn [List.length]. lia.
    + specialize (IH {| hist := history';
                        events := events st ++ EStep (step + 1) :: new |}).
      cbn [events] in *. rewrite Ht in IH. cbn [List.length]. lia.
    + cbn [snd events]. rewrite Ht. cbn [List.length]. lia.
  - cbn [snd events]. rewrite Ht. cbn [List.length]. lia.
Qed.

(** Whatever the endpoint does, a run sleeps for at most three time
    units per step of its budget. *)
Theorem run_backoff_bounded initial_user_prompt system_prompt max_steps :
  (0 <= total_sleep (events (snd (run_agent_loop initial_user_prompt system_prompt
                                    max_steps)))
   <= 3 * Z.of_nat (Z.to_nat max_steps))%Z.
Proof.
  unfold run_agent_loop.
  pose proof (agent_steps_sleep system_prompt (py_range max_steps)
                (initial_state initial_user_prompt system_prompt)) as H.
  rewrite py_range_length in H. exact H.
Qed.
End Run.

(** ** Histories the loop builds *)

Lemma conversation_shape system_prompt initial_user_prompt history :
  conversation system_prompt initial_user_prompt history ->
  exists rest,
    history = Msg r_system system_prompt :: Msg r_user initial_user_prompt :: rest
    /\ Forall (fun m => has_role r_assistant m || has_role r_tool m = true) rest
    /\ Nat.Even (List.length rest).
Proof.
  induction 1 as [|history reply observation _ (rest & -> & Hroles & Heven)].
  - exists []. repeat split; [constructor | now exists 0%nat].
  - exists (rest ++ [Msg r_assistant reply;
                     Msg r_tool (lit "Observation: " ++ observation)]).
    repeat split.
    + apply Forall_app. split; [exact Hroles|]. now repeat constructor.
    + rewrite length_app. destruct Heven as (k & ->). exists (S k). cbn. lia.
Qed.

(** A history the loop builds satisfies the history invariant, has an
    even number of messages, and loses nothing on its way to the
    endpoint: the request is the system prompt, when it is not empty,
    and then every message after the stored system message, in order,
    with each observation as a user message. *)
Theorem conversation_well_formed system_prompt initial_user_prompt history :
  conversation system_prompt initial_user_prompt history ->
  history_invariant history
  /\ Nat.Even (List.length history)
  /\ build_messages history system_prompt
     = (if pystr_eqb system_prompt [] then [] else [Msg r_system system_prompt])
         ++ map spec_fold_observation (py_tail history).
Proof.
  intros H. destruct (conversation_shape H) as (rest & -> & Hroles & Heven).
  assert (Hnosys : Forall (fun x => role x <> r_system)
                     (Msg r_user initial_user_prompt :: rest)).
  { constructor; [discriminate|]. eapply Forall_impl; [|exact Hroles].
    intros m Hm. apply orb_true_iff in Hm.
    destruct Hm as [Hm|Hm]; apply has_role_true in Hm; rewrite Hm; discriminate. }
  split; [|split].
  - split; [reflexivity | exact Hnosys].
  - destruct Heven as (k & Hk). exists (S k). cbn [List.length]. lia.
  - rewrite build_messages_eq. cbn [py_tail tl]. f_equal; [now destruct system_prompt|].
    rewrite translate_no_system by exact Hnosys. f_equal.
    assert (Hall : forall l, Forall (fun m => spec_conversational m = true) l ->
                             filter spec_conversational l = l).
    { induction 1 as [|x l Hx _ IH]; cbn [filter]; [reflexivity|]. now rewrite Hx, IH. }
    apply Hall. constructor; [reflexivity|].
    eapply Forall_impl; [|exact Hroles]. intros m Hm. unfold spec_conversational.
    apply orb_true_iff in Hm. destruct Hm as [-> | ->];
      [now rewrite orb_true_r | now rewrite !orb_true_r].
Qed.

Lemma conversation_well_formed_witness :
  build_messages
    ([Msg r_system (lit "s"); Msg r_user (lit "1 + 2?")]
       ++ [Msg r_assistant (lit "adding"); Msg r_tool (lit "Observation: " ++ lit "3")])
    (lit "s")
  = [Msg r_system (lit "s"); Msg r_user (lit "1 + 2?");
     Msg r_assistant (lit "adding"); Msg r_user (lit "Observation: 3")].
Proof.
  refine (proj2 (proj2 (@conversation_well_formed (lit "s") (lit "1 + 2?") _
                          (conversation_step (lit "adding") (lit "3")
                             (conversation_seed (lit "s") (lit "1 + 2?")))))).
Defined.

(** ** Dispatch *)

Section Dispatch.
Context {RT : Runtime}.

Lemma find_unexpected_none (args : list (pystr * pyval)) :
  (forall k v, In (k, v) args -> k = lit "a" \/ k = lit "b") ->
  find (fun kv => negb (existsb (pystr_eqb (fst kv)) (params add_numbers_tool))) args
  = None.
Proof.
  intros Hkeys. induction args as [|[k v] args IH]; [reflexivity|].
  assert (IH' : find (fun kv => negb (existsb (pystr_eqb (fst kv))
                                       (params add_numbers_tool))) args = None).
  { apply IH. intros k' v' Hin. apply (Hkeys k' v'). now right. }
  cbn [find fst]. destruct (Hkeys k v (or_introl eq_refl)) as [-> | ->]; exact IH'.
Qed.

(** A request for [add_numbers] whose arguments are exactly [a] and
    [b], in any order, each an integer or a boolean, is answered with
    the observation [Observation: ] followed by the decimal sum, when
    the sum has at most [INT_MAX_STR_DIGITS] digits; [true] counts as 1
    and [false] as 0.  A longer sum cannot be printed: line 155 raises
    the [ValueError] of the conversion in place of the observation. *)
Theorem add_numbers_dispatch payload d args a b x y :
  json_loads payload = Some (VDict d) ->
  dict_get d (lit "tool") = Some (VStr (lit "add_numbers")) ->
  dict_get d (lit "args") = Some (VDict args) ->
  (forall k v, In (k, v) args -> k = lit "a" \/ k = lit "b") ->
  dict_get args (lit "a") = Some a ->
  dict_get args (lit "b") = Some b ->
  int_value a = Some x ->
  int_value b = Some y ->
  execute_action payload
  = if (INT_MAX_STR_DIGITS <? int_digits (x + y))%nat
    then Raise (ValueError INT_LIMIT_MESSAGE)
    else Ok (lit "Observation: " ++ str_of_int (x + y)).
Proof.
  intros Hj Ht Ha Hkeys Hga Hgb Hx Hy. unfold execute_action.
  rewrite Hj. cbn [getitem_key]. rewrite Ht, Ha. cbn [bind_result lookup_tool].
  change (registry_get AVAILABLE_TOOLS (lit "add_numbers")) with (Some add_numbers_tool).
  cbn [bind_result call_kwargs]. rewrite find_unexpected_none by exact Hkeys.
  cbn [params add_numbers_tool bind_params]. rewrite Hga, Hgb.
  cbn [body add_numbers_tool]. unfold add_numbers. rewrite Hx, Hy.
  cbn [bind_result format_field].
  destruct (INT_MAX_STR_DIGITS <? int_digits (x + y))%nat; reflexivity.
Qed.

(** A request for [add_numbers] whose arguments are not a mapping, or
    name something else than [a] and [b], or leave one of the two out,
    raises a [TypeError] that the handler does not catch: the step
    records the reply and the exception leaves the loop. *)
Theorem bad_arguments_escape history text payload d args :
  py_in FINAL_MARKER text = false ->
  action_match text = Some payload ->
  json_loads payload = Some (VDict d) ->
  dict_get d (lit "tool") = Some (VStr (lit "add_numbers")) ->
  dict_get d (lit "args") = Some args ->
  match args with
  | VDict given =>
      (exists k v, In (k, v) given /\ k <> lit "a" /\ k <> lit "b")
      \/ dict_get given (lit "a") = None
      \/ dict_get given (lit "b") = None
  | _ => True
  end ->
  exists msg,
    step_body history text = Throw (history ++ [Msg r_assistant text]) (TypeError msg).
Proof.
  intros Hf Hm Hj Ht Ha Hbad.
  assert (He : exists msg, execute_action payload = Raise (TypeError msg)).
  { unfold execute_action. rewrite Hj. cbn [getitem_key]. rewrite Ht, Ha.
    cbn [bind_result lookup_tool].
    change (registry_get AVAILABLE_TOOLS (lit "add_numbers")) with (Some add_numbers_tool).
    cbn [bind_result]. destruct args as [| | | | | |given]; try (cbn; eauto).
    cbn [call_kwargs].
    destruct (find _ given) as [[k v]|] eqn:Ef; [cbn; eauto|].
    destruct Hbad as [(k & v & Hin & Hna & Hnb)|Hmissing].
    - pose proof (find_none _ _ Ef (k, v) Hin) as Hk.
      cbn [fst existsb params add_numbers_tool] in Hk.
      apply pystr_eqb_neq in Hna, Hnb.
      change (pystr_eqb k [97%N] = false) in Hna.
      change (pystr_eqb k [98%N] = false) in Hnb.
      now rewrite Hna, Hnb in Hk.
    - cbn [params add_numbers_tool bind_params].
      destruct Hmissing as [Hmiss | Hmiss].
      + change (dict_get given [97%N] = None) in Hmiss. rewrite Hmiss. cbn; eauto.
      + change (dict_get given [98%N] = None) in Hmiss. rewrite Hmiss.
        destruct (dict_get given [97%N]); cbn; eauto. }
  destruct He as (msg & He). exists msg.
  now apply (step_body_unhandled history _ Hf Hm He).
Qed.

(** A tool name that is not a string: a list or an object cannot be
    looked up and raises a [TypeError] that leaves the loop; [null], a
    boolean or a number is looked up, is not found, and gives the
    observation that the tool is not registered. *)
Theorem tool_name_not_a_string history text payload d name args :
  py_in FINAL_MARKER text = false ->
  action_match text = Some payload ->
  json_loads payload = Some (VDict d) ->
  dict_get d (lit "tool") = Some name ->
  dict_get d (lit "args") = Some args ->
  (forall s, name <> VStr s) ->
  step_body history text
  = match name with
    | VList _ | VDict _ =>
        Throw (history ++ [Msg r_assistant text])
          (TypeError (lit "unhashable type: '" ++ type_name name ++ lit "'"))
    | _ =>
        Continue (history ++ [Msg r_assistant text;
                              Msg r_tool (ERROR_PREFIX ++ lit "Tool " ++ py_str name
                                            ++ lit " not registered.")])
    end.
Proof.
  intros Hf Hm Hj Ht Ha Hns.
  assert (He : execute_action payload
               = match name with
                 | VList _ | VDict _ =>
                     Raise (TypeError (lit "unhashable type: '" ++ type_name name ++ lit "'"))
                 | _ => Raise (ValueError (lit "Tool " ++ py_str name
                                             ++ lit " not registered."))
                 end).
  { unfold execute_action. rewrite Hj. cbn [getitem_key]. rewrite Ht, Ha.
    cbn [bind_result]. destruct name; try reflexivity. now destruct (Hns s). }
  destruct name; try (now destruct (Hns s));
    try (now rewrite (step_body_handled history _ Hf Hm He eq_refl));
    now rewrite (step_body_unhandled history _ Hf Hm He eq_refl).
Qed.
End Dispatch.

(** ** Failures of the endpoint, seen from the run *)

Section Failures.
Context {RT : Runtime} {DP : Deployment}.

(** When the endpoint fails at every attempt, the error string of
    [call_llm] is read as a reply; unless the text of the exception
    itself holds the final-answer marker or an action region, the run
    ends with the failure message in its first step, after three
    requests and delays of 1 and 2, whatever its budget. *)
Theorem endpoint_down_fails_run initial_user_prompt system_prompt max_steps e :
  key_configured = true ->
  (0 < max_steps)%Z ->
  (forall tr msgs, endpoint tr msgs = RequestException e) ->
  py_in FINAL_MARKER (lit "Error: " ++ request_failed_msg 2 DEFAULT_MAX_RETRIES e) = false ->
  action_match (lit "Error: " ++ request_failed_msg 2 DEFAULT_MAX_RETRIES e) = None ->
  run_agent_loop initial_user_prompt system_prompt max_steps
  = (Ok FAILED_MESSAGE,
     {| hist := [Msg r_system system_prompt; Msg r_user initial_user_prompt];
        events :=
          EStep 1
            :: spec_retry_events
                 (build_messages [Msg r_system system_prompt; Msg r_user initial_user_prompt]
                    system_prompt) 3 0 |}).
Proof.
  intros Hkey Hpos Hdown Hf Hm. unfold run_agent_loop, py_range.
  destruct (Z.to_nat max_steps) as [|k] eqn:E; [lia|]. cbn [seq map].
  assert (Ht : think system_prompt (Z.of_nat 0)
                 (initial_state initial_user_prompt system_prompt)
               = (Ok (lit "Error: " ++ request_failed_msg 2 DEFAULT_MAX_RETRIES e),
                  {| hist := [Msg r_system system_prompt; Msg r_user initial_user_prompt];
                     events :=
                       EStep 1
                         :: spec_retry_events
                              (build_messages
                                 [Msg r_system system_prompt; Msg r_user initial_user_prompt]
                                 system_prompt) 3 0 |})).
  { unfold think, bind at 1 2, emit, get_history, call_llm. rewrite Hkey.
    cbn [negb hist events initial_state app].
    change (py_range DEFAULT_MAX_RETRIES) with [0; 1; 2]%Z.
    cbn [retry_loop]. unfold bind, post, emit, ret. cbn [hist events].
    change (0 =? DEFAULT_MAX_RETRIES - 1)%Z with false.
    change (1 =? DEFAULT_MAX_RETRIES - 1)%Z with false.
    change (2 =? DEFAULT_MAX_RETRIES - 1)%Z with true.
    repeat (rewrite Hdown; cbv iota; cbn [hist events]). reflexivity. }
  eapply agent_steps_return; [exact Ht|]. unfold step_body. now rewrite Hf, Hm.
Qed.

(** A response whose [content] is not a string (a [null] content, for
    one) makes [strip] fail with an [AttributeError]; neither handler
    of [call_llm] lists it and the loop calls [call_llm] outside its
    [try], so the exception leaves the run after that one request. *)
Theorem non_text_content_escapes system_prompt step rest st d c others m v :
  key_configured = true ->
  endpoint (events st ++ [EStep (step + 1)]) (build_messages (hist st) system_prompt)
  = Response (VDict d) ->
  dict_get d (lit "choices") = Some (VList (VDict c :: others)) ->
  dict_get c (lit "message") = Some (VDict m) ->
  dict_get m (lit "content") = Some v ->
  (forall s, v <> VStr s) ->
  agent_steps system_prompt (step :: rest) st
  = (Raise (AttributeError (lit "'" ++ type_name v
                              ++ lit "' object has no attribute 'strip'")),
     {| hist := hist st;
        events := events st ++ [EStep (step + 1);
                                EPost (build_messages (hist st) system_prompt)] |}).
Proof.
  intros Hkey Hend Hc Hmsg Hv Hns. rewrite agent_steps_cons.
  unfold think, bind at 1 2, emit, get_history, call_llm. rewrite Hkey.
  cbn [negb hist events].
  change (py_range DEFAULT_MAX_RETRIES) with [0; 1; 2]%Z.
  cbn [retry_loop]. unfold bind at 1, post at 1. cbn [hist events]. rewrite Hend.
  unfold response_content. cbn [getitem_key]. rewrite Hc. cbn [bind_result getitem_0 getitem_key].
  rewrite Hmsg. cbn [bind_result getitem_key]. rewrite Hv. cbn [bind_result].
  rewrite <- app_assoc. destruct v; try reflexivity. now destruct (Hns s).
Qed.
End Failures.

(** ** The further properties at concrete inputs *)

Lemma no_attempt_without_retries_witness :
  @call_llm (constant_model (lit "hello"))
    [Msg r_system (lit "s"); Msg r_user (lit "u")] (lit "s") 0
    {| hist := []; events := [] |}
  = (Ok (lit "Error: Maximum retry attempts exceeded."), {| hist := []; events := [] |}).
Proof.
  apply (@no_attempt_without_retries (constant_model (lit "hello"))); [reflexivity | lia].
Defined.

Lemma no_step_without_budget_witness :
  @run_agent_loop plain_runtime (keyless (RequestException (lit "down")))
    (lit "u") (lit "s") 0
  = (Ok BUDGET_MESSAGE, initial_state (lit "u") (lit "s")).
Proof.
  apply (@no_step_without_budget plain_runtime (keyless (RequestException (lit "down")))).
  lia.
Defined.

Lemma missing_key_stops_first_step_witness :
  @run_agent_loop plain_runtime (empty_key (Response (completion (lit "Final Answer: 1"))))
    (lit "u") (lit "s") DEFAULT_MAX_STEPS
  = (Raise (ValueError KEY_MISSING_MESSAGE),
     {| hist := [Msg r_system (lit "s"); Msg r_user (lit "u")]; events := [EStep 1] |}).
Proof.
  apply (@missing_key_stops_first_step plain_runtime
           (empty_key (Response (completion (lit "Final Answer: 1")))));
    [reflexivity | reflexivity].
Defined.

Lemma answered_after_failures_witness :
  @call_llm (flaky_endpoint 2 (completion (lit "  hello  ")))
    [Msg r_system (lit "s"); Msg r_user (lit "u")] (lit "s") 3
    {| hist := []; events := [] |}
  = (Ok (lit "hello"),
     {| hist := [];
        events := [EPost [Msg r_system (lit "s"); Msg r_user (lit "u")]; ESleep 1;
                   EPost [Msg r_system (lit "s"); Msg r_user (lit "u")]; ESleep 2;
                   EPost [Msg r_system (lit "s"); Msg r_user (lit "u")]] |}).
Proof.
  refine (proj1 (@answered_after_failures (flaky_endpoint 2 (completion (lit "  hello  ")))
                   [Msg r_system (lit "s"); Msg r_user (lit "u")] (lit "s") 3
                   {| hist := []; events := [] |} 2
                   (completion (lit "  hello  ")) (lit "hello") _ _ _ _ _)).
  - reflexivity.
  - lia.
  - intros tr msgs Hlt. exists (lit "timed out"). cbn [endpoint flaky_endpoint].
    cbn [events count_posts filter List.length Nat.add] in Hlt.
    apply Nat.ltb_lt in Hlt. now rewrite Hlt.
  - intros tr msgs Heq. cbn [endpoint flaky_endpoint].
    cbn [events count_posts filter List.length Nat.add] in Heq. now rewrite Heq.
  - reflexivity.
Defined.

Lemma budget_message_means_all_steps_witness :
  List.length (hist (snd (@run_agent_loop plain_runtime (constant_model EXAMPLE_REPLY)
                            (lit "123 + 456?") (lit "s") 2)))
  = 6%nat.
Proof.
  refine (proj2 (@budget_message_means_all_steps plain_runtime (constant_model EXAMPLE_REPLY)
                   (lit "123 + 456?") (lit "s") 2 _)).
  vm_compute. reflexivity.
Defined.

Lemma add_numbers_dispatch_witness :
  @execute_action plain_runtime (litq "{'tool': 'add_numbers', 'args': {'b': -5, 'a': true}}")
  = Ok (lit "Observation: -4").
Proof.
  refine (eq_trans
            (@add_numbers_dispatch plain_runtime
               (litq "{'tool': 'add_numbers', 'args': {'b': -5, 'a': true}}")
               [(lit "tool", VStr (lit "add_numbers"));
                (lit "args", VDict [(lit "b", VInt (-5)); (lit "a", VBool true)])]
               [(lit "b", VInt (-5)); (lit "a", VBool true)]
               (VBool true) (VInt (-5)) 1 (-5) _ _ _ _ _ _ _ _) _);
    try (vm_compute; reflexivity).
  intros k v [[= <- <-]|[[= <- <-]|[]]]; [now right | now left].
Defined.

Lemma bad_arguments_escape_witness :
  exists msg,
    @step_body plain_runtime [Msg r_system (lit "s"); Msg r_user (lit "u")]
      (ACTION_START ++ litq "{'tool': 'add_numbers', 'args': {'a': 1, 'b': 2, 'c': 3}}"
         ++ ACTION_END)
    = Throw [Msg r_system (lit "s"); Msg r_user (lit "u");
             Msg r_assistant
               (ACTION_START
                  ++ litq "{'tool': 'add_numbers', 'args': {'a': 1, 'b': 2, 'c': 3}}"
                  ++ ACTION_END)]
        (TypeError msg).
Proof.
  refine (@bad_arguments_escape plain_runtime
            [Msg r_system (lit "s"); Msg r_user (lit "u")]
            (ACTION_START ++ litq "{'tool': 'add_numbers', 'args': {'a': 1, 'b': 2, 'c': 3}}"
               ++ ACTION_END)
            (litq "{'tool': 'add_numbers', 'args': {'a': 1, 'b': 2, 'c': 3}}")
            [(lit "tool", VStr (lit "add_numbers"));
             (lit "args", VDict [(lit "a", VInt 1); (lit "b", VInt 2); (lit "c", VInt 3)])]
            (VDict [(lit "a", VInt 1); (lit "b", VInt 2); (lit "c", VInt 3)])
            _ _ _ _ _ _);
    try (vm_compute; reflexivity).
  left. exists (lit "c"), (VInt 3). repeat split; [|discriminate|discriminate].
  right. right. now left.
Defined.

Lemma tool_name_not_a_string_witness :
  @step_body plain_runtime [Msg r_system (lit "s"); Msg r_user (lit "u")]
    (ACTION_START ++ litq "{'tool': 5, 'args': {}}" ++ ACTION_END)
  = Continue [Msg r_system (lit "s"); Msg r_user (lit "u");
              Msg r_assistant (ACTION_START ++ litq "{'tool': 5, 'args': {}}" ++ ACTION_END);
              Msg r_tool (lit "Observation: Tool Execution Error: Tool 5 not registered.")].
Proof.
  refine (@tool_name_not_a_string plain_runtime
            [Msg r_system (lit "s"); Msg r_user (lit "u")]
            (ACTION_START ++ litq "{'tool': 5, 'args': {}}" ++ ACTION_END)
            (litq "{'tool': 5, 'args': {}}")
            [(lit "tool", VInt 5); (lit "args", VDict [])]
            (VInt 5) (VDict []) _ _ _ _ _ _);
    try (vm_compute; reflexivity).
  discriminate.
Defined.

Lemma endpoint_down_fails_run_witness :
  fst (@run_agent_loop plain_runtime dead_endpoint (lit "u") (lit "s") DEFAULT_MAX_STEPS)
  = Ok FAILED_MESSAGE.
Proof.
  refine (f_equal fst (@endpoint_down_fails_run plain_runtime dead_endpoint
                         (lit "u") (lit "s") DEFAULT_MAX_STEPS (lit "timed out")
                         _ _ _ _ _));
    vm_compute; reflexivity.
Defined.

Lemma non_text_content_escapes_witness :
  @run_agent_loop plain_runtime null_content_model (lit "u") (lit "s") 1
  = (Raise (AttributeError (lit "'NoneType' object has no attribute 'strip'")),
     {| hist := [Msg r_system (lit "s"); Msg r_user (lit "u")];
        events := [EStep 1; EPost [Msg r_system (lit "s"); Msg r_user (lit "u")]] |}).
Proof.
  refine (@non_text_content_escapes plain_runtime null_content_model (lit "s") 0 []
            (initial_state (lit "u") (lit "s"))
            [(lit "choices",
              VList [VDict [(lit "message",
                             VDict [(lit "role", VStr r_assistant);
                                    (lit "content", VNone)])]])]
            [(lit "message", VDict [(lit "role", VStr r_assistant); (lit "content", VNone)])]
            []
            [(lit "role", VStr r_assistant); (lit "content", VNone)]
            VNone _ _ _ _ _ _);
    try reflexivity.
  discriminate.
Defined.

(** ** The limits of the interpreter *)

Section Limits.
Context {RT : Runtime} {DP : Deployment}.

(** A payload that nests more containers than the decoder can enter
    raises [RecursionError], which line 164 does not list: the step
    records the reply and the exception leaves the loop, however many
    steps remain. *)
Theorem deep_payload_escapes text payload t :
  py_in FINAL_MARKER text = false ->
  action_match text = Some payload ->
  json_overflow json_depth_limit payload = Some t ->
  (forall history,
      step_body history text = Throw (history ++ [Msg r_assistant text]) (recursion_error t))
  /\ (forall system_prompt step rest st st1,
         think system_prompt step st = (Ok text, st1) ->
         agent_steps system_prompt (step :: rest) st
         = (Raise (recursion_error t),
            {| hist := hist st ++ [Msg r_assistant text]; events := events st1 |})).
Proof.
  intros Hf Hm Hdeep.
  assert (He : execute_action payload = Raise (recursion_error t)).
  { unfold execute_action, json_loads, json_too_deep. now rewrite Hdeep. }
  assert (Hbody : forall history,
             step_body history text
             = Throw (history ++ [Msg r_assistant text]) (recursion_error t)).
  { intros history. now apply (step_body_unhandled history _ Hf Hm He). }
  split; [exact Hbody|]. intros system_prompt step rest st st1 Ht.
  now rewrite agent_steps_cons, Ht, Hbody.
Qed.

(** An attempt that raises an exception which is neither a
    [RequestException] nor a [KeyError] or [IndexError] is not retried:
    the exception leaves [call_llm] after the one request, and the run
    in its first step, whatever class it has (the plain [ValueError] of
    [response.json()] included). *)
Theorem attempt_exception_escapes initial_user_prompt system_prompt max_steps e :
  key_configured = true ->
  (0 < max_steps)%Z ->
  (forall tr msgs, endpoint tr msgs = Raised e) ->
  parse_failure e = false ->
  run_agent_loop initial_user_prompt system_prompt max_steps
  = (Raise e,
     {| hist := [Msg r_system system_prompt; Msg r_user initial_user_prompt];
        events := [EStep 1;
                   EPost (build_messages
                            [Msg r_system system_prompt; Msg r_user initial_user_prompt]
                            system_prompt)] |}).
Proof.
  intros Hk Hpos Hraise Hpf. unfold run_agent_loop, py_range.
  destruct (Z.to_nat max_steps) as [|k] eqn:E; [lia|].
  cbn [seq map]. rewrite agent_steps_cons.
  unfold think, bind, emit, get_history, call_llm. rewrite Hk. cbn [negb hist events].
  change (py_range DEFAULT_MAX_RETRIES) with [0; 1; 2]%Z.
  cbn [retry_loop]. unfold bind at 1, post at 1. rewrite Hraise.
  destruct e; try discriminate Hpf; reflexivity.
Qed.
End Limits.

Lemma deep_payload_escapes_witness :
  @step_body plain_runtime [Msg r_system (lit "s"); Msg r_user (lit "u")]
    (ACTION_START ++ nested_arrays 64 ++ ACTION_END)
  = Throw [Msg r_system (lit "s"); Msg r_user (lit "u");
           Msg r_assistant (ACTION_START ++ nested_arrays 64 ++ ACTION_END)]
      (OtherError (lit "RecursionError")
         (lit "maximum recursion depth exceeded while decoding a JSON array "
            ++ lit "from a unicode string")).
Proof.
  refine (proj1 (@deep_payload_escapes plain_runtime dead_endpoint
                   (ACTION_START ++ nested_arrays 64 ++ ACTION_END)
                   (nested_arrays 64) TLBracket _ _ _)
            [Msg r_system (lit "s"); Msg r_user (lit "u")]);
    vm_compute; reflexivity.
Defined.

Lemma attempt_exception_escapes_witness :
  @run_agent_loop plain_runtime undecodable_body_model (lit "u") (lit "s") DEFAULT_MAX_STEPS
  = (Raise LITERAL_TOO_LONG,
     {| hist := [Msg r_system (lit "s"); Msg r_user (lit "u")];
        events := [EStep 1; EPost [Msg r_system (lit "s"); Msg r_user (lit "u")]] |}).
Proof.
  refine (@attempt_exception_escapes plain_runtime undecodable_body_model
            (lit "u") (lit "s") DEFAULT_MAX_STEPS LITERAL_TOO_LONG
            _ _ _ _);
    reflexivity.
Defined.

(** One level less and the decoder returns: the object has no [tool],
    and the step ends with the observation of the missing key. *)
Example nesting_within_limit :
  @step_body plain_runtime [] (ACTION_START ++ nested_arrays 63 ++ ACTION_END)
  = Continue [Msg r_assistant (ACTION_START ++ nested_arrays 63 ++ ACTION_END);
              Msg r_tool (lit "Observation: Tool Execution Error: 'tool'")].
Proof. vm_compute. reflexivity. Qed.

(** The sum of 1 and the largest number of 4300 digits has 4301: the
    arguments decode, the tool adds them, and printing the sum fails
    with a [ValueError] that the handler turns into an observation. *)
Example sum_too_long_to_print :
  @step_body plain_runtime [] (ACTION_START ++ LONG_SUM_ACTION ++ ACTION_END)
  = Continue [Msg r_assistant (ACTION_START ++ LONG_SUM_ACTION ++ ACTION_END);
              Msg r_tool (lit "Observation: Tool Execution Error: " ++ INT_LIMIT_MESSAGE)].
Proof. vm_compute. reflexivity. Qed.

(** An integer literal of 4301 digits does not decode. *)
Example literal_too_long :
  @json_loads plain_runtime (repeat 57%N (S INT_MAX_STR_DIGITS)) = None
  /\ exists z, @json_loads plain_runtime (repeat 57%N INT_MAX_STR_DIGITS) = Some (VInt z).
Proof. split; [vm_compute; reflexivity | eexists; vm_compute; reflexivity]. Qed.
